(** * Mute: key-init bundles, session keys and the in-memory key store

    A shallow embedding of these parts of the Mute message layer:

    - [util.ContainsString]                      (util/util.go)
    - [aes256.CTREncrypt], [aes256.CTRDecrypt]    (cipher/aes256/aes256.go)
    - [session.StateEqual], [session.CalcKey]     (msg/session)
    - [memstore.MemStore] and its methods         (msg/session/memstore)
    - [uid.KeyInit] and its methods               (uid/keyinit.go)

    Go strings are byte strings and are modelled by [string]; byte slices
    that are only read are modelled by [list byte]; slices that are written
    through ([memSession.send], [memSession.recv]) are views into a heap of
    backing arrays, so that aliasing between them is part of the model.
    Functions of packages whose code is not part of the development
    (base64, SHA-512, the AES key stream in counter mode, Ed25519, the JSON
    codec, the key entry type, the UID message, the identity syntax check)
    are interfaces; [ref_inst] gives small executable instances of them. *)

From Stdlib Require Import ZArith Lia List Bool.
From Stdlib.Strings Require Import Byte Ascii.
From stdpp Require Import base option gmap strings list.

Local Open Scope string_scope.
Local Open Scope nat_scope.
Local Open Scope list_scope.

(** ** Go run-time values *)

Abbreviation bytes := (list byte).

(** The error values of the program.  [errors_New s] is the value built by
    [errors.New(s)], [fmt.Errorf] and by [log.Error]/[log.Errorf] on a
    message; [ErrForeign] stands for the errors made by the packages behind
    the interfaces below; the other constructors are the package-level
    sentinels of [session] and [uid]. *)
Inductive error : Type :=
  | errors_New (msg : string)
  | ErrMessageKeyUsed
  | ErrNoKeyInit
  | ErrKeyEntryNotFound
  | ErrWrongSigKeyHash
  | ErrSessionAnchor
  | ErrRepoURI
  | ErrInvalidTimes
  | ErrExpired
  | ErrFuture
  | ErrInvalidKeyInitSig
  | ErrInvalidSrvSig
  | ErrForeign (pkg : string) (code : nat).

#[global] Instance error_eq_dec : EqDecision error.
Proof. solve_decision. Defined.

(** Outcome of a call: a value, a returned (non-nil) error, or a run-time
    panic. *)
Inductive res (A : Type) : Type :=
  | Ok (a : A)
  | Err (e : error)
  | Panic (why : string).
Arguments Ok {A} a.
Arguments Err {A} e.
Arguments Panic {A} why.

#[global] Instance res_ret : MRet res := fun A a => Ok a.
#[global] Instance res_bind : MBind res := fun A B k m =>
  match m with
  | Ok a => k a
  | Err e => Err e
  | Panic w => Panic w
  end.

(** A call that returns only an [error]: [None] is [nil]. *)
Definition of_error (e : option error) : res unit :=
  match e with
  | None => Ok tt
  | Some e => Err e
  end.

(** [panic(err)] *)
Definition panic_of {A} (e : error) : res A :=
  match e with
  | errors_New msg => Panic msg
  | _ => Panic "error"
  end.

(** Modelled from the spec: package [log] is not part of the sources.
    [log.Error] records its argument and hands it back as the error that
    the caller returns: an error kind given to it stays that kind, a
    message becomes a new error with that text. *)
Definition log_Error (e : error) : error := e.

(** Modelled from the spec: [log.Error] on a message, [log.Errorf] on a
    formatted message (package [log] is not part of the sources). *)
Definition log_Errorf (msg : string) : error := errors_New msg.

(** Unsigned 64-bit integers are values of [Z] reduced modulo [2^64];
    [uint64] is also the conversion from [int64]. *)
Definition uint64 (z : Z) : Z := (z mod 2 ^ 64)%Z.

(** An [io.Reader], as the bytes it still delivers. *)
Abbreviation Reader := (list byte).

(** [io.ReadFull(r, buf)] with [len(buf) = n]: [io.EOF] when nothing could
    be read, [io.ErrUnexpectedEOF] when the reader ran dry on the way. *)
Definition io_ReadFull (r : Reader) (n : nat) : res (bytes * Reader) :=
  if decide (n ≤ length r)
  then Ok (take n r, drop n r)
  else Err (errors_New (if decide (r = []) then "EOF" else "unexpected EOF")).

#[global] Instance byte_eq_decision : EqDecision byte := Byte.byte_eq_dec.

(** [[]byte(s)] *)
Definition bytes_of_string : string -> bytes := String.list_byte_of_string.

(** Bitwise exclusive or of two bytes. *)
Definition byte_xor (a b : byte) : byte :=
  let '(a0, (a1, (a2, (a3, (a4, (a5, (a6, a7))))))) := Byte.to_bits a in
  let '(b0, (b1, (b2, (b3, (b4, (b5, (b6, b7))))))) := Byte.to_bits b in
  Byte.of_bits (xorb a0 b0, (xorb a1 b1, (xorb a2 b2, (xorb a3 b3,
               (xorb a4 b4, (xorb a5 b5, (xorb a6 b6, xorb a7 b7))))))).

(** [unicode/utf8.Valid]: the bytes are a sequence of UTF-8 encodings of
    code points, each in its shortest form, none a surrogate and none above
    U+10FFFF. *)
Definition byte_in (lo hi : N) (b : byte) : bool :=
  (lo <=? Byte.to_N b)%N && (Byte.to_N b <=? hi)%N.

Fixpoint utf8_Valid (p : bytes) : bool :=
  match p with
  | [] => true
  | c :: r =>
      if byte_in 0x00 0x7f c then utf8_Valid r
      else if byte_in 0xc2 0xdf c then
        match r with
        | c1 :: r1 => byte_in 0x80 0xbf c1 && utf8_Valid r1
        | _ => false
        end
      else if byte_in 0xe0 0xef c then
        match r with
        | c1 :: c2 :: r2 =>
            byte_in (if byte_in 0xe0 0xe0 c then 0xa0 else 0x80)
                    (if byte_in 0xed 0xed c then 0x9f else 0xbf) c1 &&
            byte_in 0x80 0xbf c2 && utf8_Valid r2
        | _ => false
        end
      else if byte_in 0xf0 0xf4 c then
        match r with
        | c1 :: c2 :: c3 :: r3 =>
            byte_in (if byte_in 0xf0 0xf0 c then 0x90 else 0x80)
                    (if byte_in 0xf4 0xf4 c then 0x8f else 0xbf) c1 &&
            byte_in 0x80 0xbf c2 && byte_in 0x80 0xbf c3 && utf8_Valid r3
        | _ => false
        end
      else false
  end.

(** [utf8.ValidString] *)
Definition utf8_ValidString (s : string) : bool := utf8_Valid (bytes_of_string s).

(** ** Interfaces of the packages outside the development *)

(** [encode/base64] *)
Class Base64 := {
  base64_Encode : bytes -> string;
  base64_Decode : string -> res bytes
}.

(** [cipher.SHA512] *)
Class Hash := {
  SHA512 : bytes -> bytes
}.

(** [crypto/aes] with [crypto/cipher.NewCTR]: byte [i] of the key stream of
    AES in counter mode under a key and an initial counter block. *)
Class CTR := {
  ctr_keystream : bytes -> bytes -> nat -> byte
}.

(** [cipher.Ed25519Key]: [Sign] under a private key; [SetPublicKey]
    followed by [Verify] of a message and a signature. *)
Class Ed25519 := {
  ed25519_Sign : bytes -> bytes -> bytes;
  ed25519_Verify : bytes -> bytes -> bytes -> bool
}.

(** [uid.KeyEntry] and the functions of it that the code below calls.
    [ke_zero] is the zero value; [ke_exported] is the entry with only its
    exported fields, which is what the JSON encoding carries. *)
Class KeyEntryT := {
  KeyEntry : Type;
  ke_zero : KeyEntry;
  ke_FUNCTION : KeyEntry -> string;
  ke_HASH : KeyEntry -> string;
  ke_InitDHKey : KeyEntry -> Reader -> res (KeyEntry * Reader);
  ke_PrivateKey32 : KeyEntry -> bytes;
  ke_Verify : KeyEntry -> option error;
  ke_exported : KeyEntry -> KeyEntry;
  KeyEntryEqual : option KeyEntry -> option KeyEntry -> res bool
}.

(** [uid.Message], as far as [KeyInit] reads it:
    [msg.UIDContent.SIGKEY.HASH], [msg.UIDContent.REPOURIS] and
    [msg.UIDContent.SIGKEY.ed25519Key]; and [uid.ProtocolVersion]. *)
Class MessageT := {
  Message : Type;
  UIDContent_SIGKEY_HASH : Message -> string;
  UIDContent_REPOURIS : Message -> list string;
  UIDContent_SIGKEY_ed25519Key : Message -> bytes;
  ProtocolVersion : string
}.

(** [identity.IsMapped] *)
Class Identity := {
  identity_IsMapped : string -> option error
}.

(** [crypto/aes]: encryption and decryption of one 16-byte block under a
    key. *)
Class BlockCipher := {
  aes_Encrypt : bytes -> bytes -> bytes;
  aes_Decrypt : bytes -> bytes -> bytes
}.

(** ** Package util *)

Module util.

Fixpoint ContainsString (sa : list string) (s : string) : bool :=
  match sa with
  | [] => false
  | v :: sa' => if decide (v = s) then true else ContainsString sa' s
  end.

End util.

(** ** Package aes256 *)

Module aes256.

Definition BlockSize : nat := 16.

(** [stream.XORKeyStream(dst, src)] on a fresh stream: every byte of [src]
    is combined with the key stream byte at its position. *)
Definition XORKeyStream (stream : nat -> byte) (src : bytes) : bytes :=
  imap (fun i b => byte_xor b (stream i)) src.

Definition CTREncrypt `{CTR} (key plaintext : bytes) (rand : Reader)
  : res (bytes * Reader) :=
  if decide (length key ≠ 32)
  then Panic "aes256: AES-256 key is not 32 bytes long"
  else
    match io_ReadFull rand BlockSize with
    | Ok (iv, rand') =>
        let stream := ctr_keystream key iv in
        Ok (iv ++ XORKeyStream stream plaintext, rand')
    | Err e => panic_of e
    | Panic w => Panic w
    end.

Definition CTRDecrypt `{CTR} (key ciphertext : bytes) : res bytes :=
  if decide (length key ≠ 32)
  then Panic "aes256: AES-256 key is not 32 bytes long"
  else if decide (length ciphertext < BlockSize)
  then Panic "aes256: ciphertext too short"
  else
    let iv := take BlockSize ciphertext in
    let ciphertext := drop BlockSize ciphertext in
    let stream := ctr_keystream key iv in
    Ok (XORKeyStream stream ciphertext).

(** Bytewise exclusive or of two blocks. *)
Definition xor_block (a b : bytes) : bytes := zip_with byte_xor a b.

(** [crypto/cipher]'s CBC encrypter on [blocks] blocks of [src]: a block
    is combined with the ciphertext block before it (with the IV for the
    first block) and encrypted. *)
Fixpoint cbc_encrypt `{BlockCipher} (key iv : bytes) (blocks : nat) (src : bytes)
  : bytes :=
  match blocks with
  | 0 => []
  | S n =>
      let c := aes_Encrypt key (xor_block (take BlockSize src) iv) in
      c ++ cbc_encrypt key c n (drop BlockSize src)
  end.

(** [crypto/cipher]'s CBC decrypter on [blocks] blocks of [src]: a block
    is decrypted and combined with the ciphertext block before it (with
    the IV for the first block). *)
Fixpoint cbc_decrypt `{BlockCipher} (key iv : bytes) (blocks : nat) (src : bytes)
  : bytes :=
  match blocks with
  | 0 => []
  | S n =>
      let c := take BlockSize src in
      xor_block (aes_Decrypt key c) iv ++ cbc_decrypt key c n (drop BlockSize src)
  end.

Definition CBCEncrypt `{BlockCipher} (key plaintext : bytes) (rand : Reader)
  : res (bytes * Reader) :=
  if decide (length key ≠ 32)
  then Panic "aes256: AES-256 key is not 32 bytes long"
  else if decide (length plaintext mod BlockSize ≠ 0)
  then Panic "aes256: plaintext is not a multiple of the block size"
  else
    match io_ReadFull rand BlockSize with
    | Ok (iv, rand') =>
        Ok (iv ++ cbc_encrypt key iv (length plaintext / BlockSize) plaintext,
            rand')
    | Err e => panic_of e
    | Panic w => Panic w
    end.

Definition CBCDecrypt `{BlockCipher} (key ciphertext : bytes) : res bytes :=
  if decide (length key ≠ 32)
  then Panic "aes256: AES-256 key is not 32 bytes long"
  else if decide (length ciphertext < BlockSize)
  then Panic "aes256: ciphertext too short"
  else
    let iv := take BlockSize ciphertext in
    let ciphertext := drop BlockSize ciphertext in
    if decide (length ciphertext mod BlockSize ≠ 0)
    then Panic "aes256: ciphertext is not a multiple of the block size"
    else Ok (cbc_decrypt key iv (length ciphertext / BlockSize) ciphertext).

(** [CTRStream(key, iv)]: the stream, as its key stream bytes. *)
Definition CTRStream `{CTR} (key iv : bytes) : res (nat -> byte) :=
  if decide (length key ≠ 32)
  then Panic "aes256: AES-256 key is not 32 bytes long"
  else if decide (length iv ≠ 16)
  then Panic "aes256: AES-256 IV is not 16 bytes long"
  else Ok (ctr_keystream key iv).

End aes256.

(** ** Package msg *)

Module msg.

Definition Version : Z := 1.

Definition DefaultCiphersuite : string := "CURVE25519 XSALSA20 POLY1305".

Definition NumOfFutureKeys : nat := 50.

End msg.

(** ** Package session *)

(** Addresses of heap objects; a pointer is [None] (nil) or an address. *)
Abbreviation addr := nat.
Abbreviation pointer := (option addr).

Module session.

Record State `{KeyEntryT} : Type := {
  SenderSessionCount : Z;
  SenderMessageCount : Z;
  MaxRecipientCount : Z;
  RecipientTemp : KeyEntry;
  SenderSessionPub : KeyEntry;
  NextSenderSessionPub : option KeyEntry;
  NextRecipientSessionPubSeen : option KeyEntry;
  NymAddress : string;
  KeyInitSession : bool
}.

(** [StateEqual(a, b)].  [mem] gives the [State] stored at an address.  The
    pointers to key entries are given to [KeyEntryEqual] as the entries
    they point to ([None] for nil). *)
Definition StateEqual `{KeyEntryT} (mem : addr -> State) (a b : pointer)
  : res bool :=
  if decide (a = b) then Ok true
  else
    match a, b with
    | Some pa, Some pb =>
        let a := mem pa in
        let b := mem pb in
        if decide (SenderSessionCount a ≠ SenderSessionCount b) then Ok false
        else if decide (SenderMessageCount a ≠ SenderMessageCount b) then Ok false
        else if decide (MaxRecipientCount a ≠ MaxRecipientCount b) then Ok false
        else
          e1 ← KeyEntryEqual (Some (RecipientTemp a)) (Some (RecipientTemp b));
          if negb e1 then Ok false
          else
            e2 ← KeyEntryEqual (Some (SenderSessionPub a)) (Some (SenderSessionPub b));
            if negb e2 then Ok false
            else
              e3 ← KeyEntryEqual (NextSenderSessionPub a) (NextSenderSessionPub b);
              if negb e3 then Ok false
              else
                e4 ← KeyEntryEqual (NextRecipientSessionPubSeen a)
                                   (NextRecipientSessionPubSeen b);
                if negb e4 then Ok false
                else if decide (NymAddress a ≠ NymAddress b) then Ok false
                else if negb (eqb (KeyInitSession a) (KeyInitSession b)) then Ok false
                else Ok true
    | _, _ => Panic "invalid memory address or nil pointer dereference"
    end.

Definition CalcStateKey `{Base64, Hash} (senderIdentityPub recipientIdentityPub : bytes)
  : string :=
  let key := senderIdentityPub ++ recipientIdentityPub in
  base64_Encode (SHA512 key).

Definition CalcKey `{Base64, Hash}
  (senderIdentityHash recipientIdentityHash
   senderSessionHash recipientSessionHash : string) : string :=
  let key := senderIdentityHash +:+ recipientIdentityHash in
  let key := key +:+ (senderSessionHash +:+ recipientSessionHash) in
  base64_Encode (SHA512 (bytes_of_string key)).

End session.

(** ** Package memstore *)

Module memstore.

(** A [[]string] value: a window of [s_len] elements starting at offset
    [s_off] of the backing array at [s_arr]. *)
Record slice : Type := {
  s_arr : addr;
  s_off : nat;
  s_len : nat
}.

(** The backing arrays of the [[]string] values. *)
Abbreviation heap := (gmap addr (list string)).

(** [s[i]] *)
Definition slice_get (h : heap) (s : slice) (i : nat) : res string :=
  if decide (i < s_len s) then
    match h !! s_arr s ≫= (fun a => a !! (s_off s + i)) with
    | Some v => Ok v
    | None => Panic "invalid slice"
    end
  else Panic "index out of range".

(** [s[i] = v] *)
Definition slice_set (h : heap) (s : slice) (i : nat) (v : string) : res heap :=
  if decide (i < s_len s) then
    match h !! s_arr s with
    | Some a =>
        if decide (s_off s + i < length a)
        then Ok (<[s_arr s := <[s_off s + i := v]> a]> h)
        else Panic "invalid slice"
    | None => Panic "invalid slice"
    end
  else Panic "index out of range".

Record memSession : Type := {
  rootKeyHash : string;
  chainKey : string;
  send : slice;
  recv : slice
}.

Record MemStore `{KeyEntryT} : Type := {
  privateKeyEntryMap : gmap string (option KeyEntry);
  publicKeyEntryMap : gmap string (option KeyEntry);
  sessionStates : gmap string pointer;
  sessions : gmap string memSession;
  senderSessionPubHash : string
}.

Definition New `{KeyEntryT} : MemStore := {|
  privateKeyEntryMap := ∅;
  publicKeyEntryMap := ∅;
  sessionStates := ∅;
  sessions := ∅;
  senderSessionPubHash := ""
|}.

Definition SenderSessionPubHash `{KeyEntryT} (ms : MemStore) : string :=
  senderSessionPubHash ms.

(** The value of a map at a key, nil when the key is absent. *)
Definition map_index {V} (m : gmap string (option V)) (k : string) : option V :=
  default None (m !! k).

Definition GetSessionState `{KeyEntryT} (ms : MemStore) (myID contactID : string)
  : pointer * option error :=
  (map_index (sessionStates ms) (myID +:+ "@" +:+ contactID), None).

(** The argument of the debug line, [sessionState.SenderSessionPub.HASH],
    is evaluated first: a nil [sessionState] panics. *)
Definition SetSessionState `{KeyEntryT} (ms : MemStore) (myID contactID : string)
  (sessionState : pointer) : res MemStore :=
  match sessionState with
  | None => Panic "invalid memory address or nil pointer dereference"
  | Some _ =>
      Ok {| privateKeyEntryMap := privateKeyEntryMap ms;
            publicKeyEntryMap := publicKeyEntryMap ms;
            sessionStates :=
              <[myID +:+ "@" +:+ contactID := sessionState]> (sessionStates ms);
            sessions := sessions ms;
            senderSessionPubHash := senderSessionPubHash ms |}
  end.

(** [StoreSession]: the store after the call and the returned error. *)
Definition StoreSession `{KeyEntryT, Identity} (ms : MemStore)
  (myID contactID senderSessionPubHash rootKeyHash chainKey : string)
  (send recv : slice) : MemStore * option error :=
  match identity_IsMapped myID with
  | Some err => (ms, Some (log_Error err))
  | None =>
      match identity_IsMapped contactID with
      | Some err => (ms, Some (log_Error err))
      | None =>
          if decide (s_len send ≠ s_len recv)
          then (ms, Some (log_Errorf "memstore: len(send) != len(recv)"))
          else
            let index := myID +:+ "@" +:+ contactID +:+ "@" +:+ senderSessionPubHash in
            ({| privateKeyEntryMap := privateKeyEntryMap ms;
                publicKeyEntryMap := publicKeyEntryMap ms;
                sessionStates := sessionStates ms;
                sessions :=
                  <[index := {| rootKeyHash := rootKeyHash;
                                chainKey := chainKey;
                                send := send;
                                recv := recv |}]> (sessions ms);
                senderSessionPubHash := senderSessionPubHash |}, None)
      end
  end.

Definition HasSession `{KeyEntryT} (ms : MemStore)
  (myID contactID senderSessionPubHash : string) : bool :=
  bool_decide (is_Some
    (sessions ms !! (myID +:+ "@" +:+ contactID +:+ "@" +:+ senderSessionPubHash))).

Definition NumMessageKeys `{KeyEntryT} (ms : MemStore)
  (myID contactID senderSessionPubHash : string) : res nat :=
  let index := myID +:+ "@" +:+ contactID +:+ "@" +:+ senderSessionPubHash in
  match sessions ms !! index with
  | None =>
      Err (log_Errorf ("memstore: no session found for " +:+ myID +:+
                       " and " +:+ contactID))
  | Some s => Ok (s_len (send s))
  end.

(** [copy(messageKey[:], k) != 64] holds exactly when [k] has fewer than 64
    bytes; a longer [k] is cut to its first 64 bytes. *)
Definition GetMessageKey `{KeyEntryT, Base64} (h : heap) (ms : MemStore)
  (myID contactID senderSessionPubHash : string)
  (sender : bool) (msgIndex : nat) : res bytes :=
  let index := myID +:+ "@" +:+ contactID +:+ "@" +:+ senderSessionPubHash in
  match sessions ms !! index with
  | None =>
      Err (log_Errorf ("memstore: no session found for " +:+ myID +:+
                       " and " +:+ contactID))
  | Some s =>
      if decide (s_len (send s) ≤ msgIndex)
      then Err (log_Errorf "memstore: message index out of bounds")
      else
        '(key, party) ←
           (if sender
            then key ← slice_get h (send s) msgIndex; Ok (key, "sender")
            else key ← slice_get h (recv s) msgIndex; Ok (key, "recipient"));
        if decide (key = "")
        then Err (log_Error ErrMessageKeyUsed)
        else
          match base64_Decode key with
          | Ok k =>
              if decide (Nat.min 64 (length k) ≠ 64)
              then Err (log_Errorf ("memstore: " +:+ party +:+ " key for " +:+
                          myID +:+ " and " +:+ contactID +:+ " has wrong length"))
              else Ok (take 64 k)
          | Err _ =>
              Err (log_Errorf ("memstore: cannot decode " +:+ party +:+
                     " key for " +:+ myID +:+ " and " +:+ contactID +:+ ": "))
          | Panic w => Panic w
          end
  end.

(** [DelMessageKey]: the heap after the call and the outcome.  The store
    itself is not changed: the key is overwritten in the backing array. *)
Definition DelMessageKey `{KeyEntryT} (h : heap) (ms : MemStore)
  (myID contactID senderSessionPubHash : string)
  (sender : bool) (msgIndex : nat) : heap * res unit :=
  let index := myID +:+ "@" +:+ contactID +:+ "@" +:+ senderSessionPubHash in
  match sessions ms !! index with
  | None =>
      (h, Err (log_Errorf ("memstore: no session found for " +:+ myID +:+
                           " and " +:+ contactID)))
  | Some s =>
      if decide (s_len (send s) ≤ msgIndex)
      then (h, Err (log_Errorf "memstore: message index out of bounds"))
      else
        match slice_set h (if sender then send s else recv s) msgIndex "" with
        | Ok h' => (h', Ok tt)
        | Err e => (h, Err e)
        | Panic w => (h, Panic w)
        end
  end.

Definition AddPrivateKeyEntry `{KeyEntryT} (ms : MemStore) (ke : option KeyEntry)
  : res MemStore :=
  match ke with
  | None => Panic "invalid memory address or nil pointer dereference"
  | Some k =>
      Ok {| privateKeyEntryMap := <[ke_HASH k := ke]> (privateKeyEntryMap ms);
            publicKeyEntryMap := publicKeyEntryMap ms;
            sessionStates := sessionStates ms;
            sessions := sessions ms;
            senderSessionPubHash := senderSessionPubHash ms |}
  end.

Definition AddPublicKeyEntry `{KeyEntryT} (ms : MemStore) (identity : string)
  (ke : option KeyEntry) : MemStore :=
  {| privateKeyEntryMap := privateKeyEntryMap ms;
     publicKeyEntryMap := <[identity := ke]> (publicKeyEntryMap ms);
     sessionStates := sessionStates ms;
     sessions := sessions ms;
     senderSessionPubHash := senderSessionPubHash ms |}.

Definition GetPrivateKeyEntry `{KeyEntryT} (ms : MemStore) (pubKeyHash : string)
  : res (option KeyEntry) :=
  match privateKeyEntryMap ms !! pubKeyHash with
  | None => Err (errors_New ("memstore: could not find key entry " +:+ pubKeyHash))
  | Some ke => Ok ke
  end.

(** [GetPublicKeyEntry(uidMsg)], given [uidMsg.Identity()]. *)
Definition GetPublicKeyEntry `{KeyEntryT} (ms : MemStore) (identity : string)
  : res (option KeyEntry * string) :=
  match publicKeyEntryMap ms !! identity with
  | None => Err (log_Error ErrNoKeyInit)
  | Some ke => Ok (ke, "undefined")
  end.

Definition GetRootKeyHash `{KeyEntryT, Base64} (ms : MemStore)
  (myID contactID senderSessionPubHash : string) : res bytes :=
  let index := myID +:+ "@" +:+ contactID +:+ "@" +:+ senderSessionPubHash in
  match sessions ms !! index with
  | None =>
      Err (log_Errorf ("memstore: no session found for " +:+ myID +:+
                       " and " +:+ contactID))
  | Some s =>
      match base64_Decode (rootKeyHash s) with
      | Ok k =>
          if decide (Nat.min 64 (length k) ≠ 64)
          then Err (log_Errorf "memstore: root key hash has wrong length")
          else Ok (take 64 k)
      | Err _ => Err (log_Errorf "memstore: cannot decode root key hash")
      | Panic w => Panic w
      end
  end.

(** The calls that change a store, and the store after a sequence of them
    (a panic of one call ends the sequence). *)
Inductive call `{KeyEntryT} : Type :=
  | CallAddPrivateKeyEntry (ke : option KeyEntry)
  | CallAddPublicKeyEntry (identity : string) (ke : option KeyEntry)
  | CallSetSessionState (myID contactID : string) (sessionState : pointer)
  | CallStoreSession
      (myID contactID senderSessionPubHash rootKeyHash chainKey : string)
      (send recv : slice).

Definition exec `{KeyEntryT, Identity} (ms : MemStore) (c : call) : res MemStore :=
  match c with
  | CallAddPrivateKeyEntry ke => AddPrivateKeyEntry ms ke
  | CallAddPublicKeyEntry identity ke => Ok (AddPublicKeyEntry ms identity ke)
  | CallSetSessionState myID contactID st => SetSessionState ms myID contactID st
  | CallStoreSession myID contactID pubHash rootKeyHash chainKey send recv =>
      Ok (StoreSession ms myID contactID pubHash rootKeyHash chainKey send recv).1
  end.

Fixpoint run `{KeyEntryT, Identity} (ms : MemStore) (cs : list call) : res MemStore :=
  match cs with
  | [] => Ok ms
  | c :: cs' => ms' ← exec ms c; run ms' cs'
  end.

End memstore.

(** ** Package uid *)

Module uid.

Record SessionAnchor `{KeyEntryT} : Type := {
  MIXADDRESS : string;
  NYMADDRESS : string;
  PFKEYS : list KeyEntry
}.

Record contents : Type := {
  VERSION : string;
  MSGCOUNT : Z;
  NOTAFTER : Z;
  NOTBEFORE : Z;
  FALLBACK : bool;
  SIGKEYHASH : string;
  REPOURI : string;
  SESSIONANCHOR : string;
  SESSIONANCHORHASH : string
}.

Record KeyInit : Type := {
  Contents : contents;
  SIGNATURE : string
}.

(** [marshalSorted] at the three types it is used at, and
    [json.Unmarshal] into a [SessionAnchor]. *)
Class JSON `{KeyEntryT} := {
  marshalSorted_SessionAnchor : SessionAnchor -> bytes;
  marshalSorted_contents : contents -> bytes;
  marshalSorted_KeyInit : KeyInit -> bytes;
  json_Unmarshal_SessionAnchor : bytes -> res SessionAnchor
}.

Definition MaxNotAfter : Z := uint64 (90 * 24 * 60 * 60).

Definition SessionAnchor_json `{JSON} (sa : SessionAnchor) : bytes :=
  marshalSorted_SessionAnchor sa.

Definition contents_json `{JSON} (c : contents) : bytes :=
  marshalSorted_contents c.

Definition KeyInit_JSON `{JSON} (ki : KeyInit) : bytes :=
  marshalSorted_KeyInit ki.

Definition KeyInit_MsgCount (ki : KeyInit) : Z := MSGCOUNT (Contents ki).

Definition KeyInit_SigKeyHash (ki : KeyInit) : string := SIGKEYHASH (Contents ki).

(** [b[:n]] on a slice without spare capacity *)
Definition slice_to (b : bytes) (n : nat) : res bytes :=
  if decide (length b < n) then Panic "slice bounds out of range" else Ok (take n b).

(** [sa.KeyEntry(function)]: the first of [PFKEYS] with that function *)
Fixpoint PFKEYS_find `{KeyEntryT} (pfkeys : list KeyEntry) (function : string)
  : res KeyEntry :=
  match pfkeys with
  | [] => Err ErrKeyEntryNotFound
  | ke :: rest =>
      if decide (ke_FUNCTION ke = function) then Ok ke else PFKEYS_find rest function
  end.

Definition SessionAnchor_KeyEntry `{KeyEntryT} (sa : SessionAnchor) (function : string)
  : res KeyEntry :=
  PFKEYS_find (PFKEYS sa) function.

Definition SessionAnchor_NymAddress `{KeyEntryT} (sa : SessionAnchor) : string :=
  NYMADDRESS sa.

Definition KeyInit_SessionAnchor `{JSON, Base64, Hash, CTR}
  (ki : KeyInit) (sigPubKey : string) : res SessionAnchor :=
  pubKey ← base64_Decode sigPubKey;
  let keyHash := SHA512 pubKey in
  if decide (SIGKEYHASH (Contents ki) ≠ base64_Encode (SHA512 keyHash))
  then Err ErrWrongSigKeyHash
  else
    enc ← base64_Decode (SESSIONANCHOR (Contents ki));
    key ← slice_to keyHash 32;
    txt ← aes256.CTRDecrypt key enc;
    match json_Unmarshal_SessionAnchor txt with
    | Err err => Err (log_Error err)
    | Panic w => Panic w
    | Ok sa =>
        if decide (SESSIONANCHORHASH (Contents ki)
                   ≠ base64_Encode (SHA512 (SessionAnchor_json sa)))
        then Err ErrSessionAnchor
        else Ok sa
    end.

Definition KeyInit_KeyEntryECDHE25519 `{JSON, Base64, Hash, CTR}
  (ki : KeyInit) (sigPubKey : string) : res KeyEntry :=
  sa ← KeyInit_SessionAnchor ki sigPubKey;
  SessionAnchor_KeyEntry sa "ECDHE25519".

(** [ki.Verify(keyInitRepositoryURIs, sigPubKey)]; [now] is the value that
    [times.Now()] gives when it is read. *)
Definition KeyInit_Verify `{JSON, Base64, Hash, CTR, Ed25519}
  (ki : KeyInit) (keyInitRepositoryURIs : list string) (sigPubKey : string)
  (now : Z) : res unit :=
  if negb (util.ContainsString keyInitRepositoryURIs (REPOURI (Contents ki)))
  then Err ErrRepoURI
  else
    sa ← KeyInit_SessionAnchor ki sigPubKey;
    ke ← SessionAnchor_KeyEntry sa "ECDHE25519";
    _ ← of_error (ke_Verify ke);
    if decide (NOTBEFORE (Contents ki) >= NOTAFTER (Contents ki))%Z
    then Err ErrInvalidTimes
    else if decide (NOTAFTER (Contents ki) < uint64 now)%Z
    then Err ErrExpired
    else
      sig ← base64_Decode (SIGNATURE ki);
      pubKey ← base64_Decode sigPubKey;
      if negb (ed25519_Verify pubKey (contents_json (Contents ki)) sig)
      then Err ErrInvalidKeyInitSig
      else Ok tt.

Definition KeyInit_Sign `{JSON, Base64, Ed25519} (ki : KeyInit) (sigKey : bytes)
  : string :=
  base64_Encode (ed25519_Sign sigKey (KeyInit_JSON ki)).

Definition KeyInit_VerifySrvSig `{JSON, Base64, Ed25519}
  (ki : KeyInit) (signature srvPubKey : string) : res unit :=
  sig ← base64_Decode signature;
  pubKey ← base64_Decode srvPubKey;
  if negb (ed25519_Verify pubKey (KeyInit_JSON ki) sig)
  then Err ErrInvalidSrvSig
  else Ok tt.

(** [msg.sessionAnchor(key, mixaddress, nymaddress, rand)]: the four
    strings it returns and what is left of [rand]. *)
Definition Message_sessionAnchor `{JSON, Base64, Hash, CTR}
  (key : bytes) (mixaddress nymaddress : string) (rand : Reader)
  : res ((string * string * string * string) * Reader) :=
  '(ke, rand) ← ke_InitDHKey ke_zero rand;
  let sa := {| MIXADDRESS := mixaddress;
               NYMADDRESS := nymaddress;
               PFKEYS := [ke] |} in
  let jsn := SessionAnchor_json sa in
  let hash := SHA512 jsn in
  key32 ← slice_to key 32;
  '(ct, rand) ← aes256.CTREncrypt key32 jsn rand;
  let enc := base64_Encode ct in
  Ok ((enc, base64_Encode hash, ke_HASH ke,
       base64_Encode (ke_PrivateKey32 ke)), rand).

(** [msg.KeyInit(...)]; [now1] and [now2] are the values of the two
    readings of [times.Now()]. *)
Definition Message_KeyInit `{JSON, Base64, Hash, CTR, Ed25519, MessageT}
  (msg : Message) (msgcount notafter notbefore : Z) (fallback : bool)
  (repoURI mixaddress nymaddress : string) (rand : Reader) (now1 now2 : Z)
  : res ((KeyInit * string * string) * Reader) :=
  if decide (notbefore >= notafter)%Z then Err ErrInvalidTimes
  else if decide (notafter < uint64 now1)%Z then Err ErrExpired
  else if decide (notafter > uint64 (uint64 now2 + MaxNotAfter))%Z then Err ErrFuture
  else
    keyHash ← base64_Decode (UIDContent_SIGKEY_HASH msg);
    let sigkeyhash := base64_Encode (SHA512 keyHash) in
    match UIDContent_REPOURIS msg with
    | [] => Panic "index out of range"
    | repoURI0 :: _ =>
        if decide (repoURI ≠ repoURI0)
        then Err (log_Errorf "uri: repoURI differs from msg.UIDContent.REPOURIS[0]")
        else
          '((sa, sah, pubKeyHash, privateKey), rand) ←
             Message_sessionAnchor keyHash mixaddress nymaddress rand;
          let c := {| VERSION := ProtocolVersion;
                      MSGCOUNT := msgcount;
                      NOTAFTER := notafter;
                      NOTBEFORE := notbefore;
                      FALLBACK := fallback;
                      SIGKEYHASH := sigkeyhash;
                      REPOURI := repoURI;
                      SESSIONANCHOR := sa;
                      SESSIONANCHORHASH := sah |} in
          let sig := ed25519_Sign (UIDContent_SIGKEY_ed25519Key msg) (contents_json c) in
          Ok (({| Contents := c; SIGNATURE := base64_Encode sig |},
               pubKeyHash, privateKey), rand)
    end.

Definition KeyInit_checkV1_0 (ki : KeyInit) : option error :=
  if decide (MSGCOUNT (Contents ki) ≠ 0%Z)
  then Some (log_Errorf "uid: ki.Contents.MSGCOUNT must be 0")
  else None.

Definition KeyInit_Check (ki : KeyInit) : option error :=
  if decide (VERSION (Contents ki) ≠ "1.0")
  then Some (log_Errorf ("uid: unknown ki.Contents.VERSION: " +:+ VERSION (Contents ki)))
  else KeyInit_checkV1_0 ki.

End uid.

(** ** Package cryptengine: the key store methods *)

(** [keydb.KeyDB.GetPrivateKeyInit] and [uid.KeyEntry.SetPrivateKey]. *)
Class KeyDB `{KeyEntryT} := {
  keyDB_GetPrivateKeyInit : string -> res (uid.KeyInit * string * string);
  ke_SetPrivateKey : KeyEntry -> string -> res KeyEntry
}.

Module cryptengine.


End cryptengine.

(** ** A reference instance of the interfaces

    Small executable instances, used to run the definitions on concrete
    inputs. *)

Module ref_inst.

(** bytes and strings are the same data *)
#[local] Instance base64_id : Base64 := {|
  base64_Encode := String.string_of_list_byte;
  base64_Decode := fun s => Ok (String.list_byte_of_string s)
|}.

(** the first 64 bytes of the input, filled up with zeros *)
#[local] Instance hash_prefix : Hash := {|
  SHA512 := fun b => take 64 (b ++ replicate 64 x00)
|}.

(** the key stream repeats the key and the counter block *)
#[local] Instance ctr_repeat : CTR := {|
  ctr_keystream := fun key iv i =>
    nth (i mod 48) (key ++ iv) x00
|}.

(** a block is combined bytewise with the first byte of the key *)
#[local] Instance block_mask : BlockCipher := {|
  aes_Encrypt := fun key b => map (fun x => byte_xor x (hd x00 key)) b;
  aes_Decrypt := fun key b => map (fun x => byte_xor x (hd x00 key)) b
|}.

(** a signature is the message itself, prefixed by the key *)
#[local] Instance ed25519_echo : Ed25519 := {|
  ed25519_Sign := fun sk m => sk ++ m;
  ed25519_Verify := fun pk m sig => bool_decide (sig = pk ++ m)
|}.

(** a key entry is a function name, a hash and a private key; the hash of
    a fresh entry is made from its private key *)
#[local] Instance key_entry_triple : KeyEntryT := {|
  KeyEntry := string * string * bytes;
  ke_zero := ("", "", []);
  ke_FUNCTION := fun ke => ke.1.1;
  ke_HASH := fun ke => ke.1.2;
  ke_InitDHKey := fun _ rand =>
    if decide (length rand < 2) then Err (errors_New "unexpected EOF")
    else Ok (("ECDHE25519", String.string_of_list_byte (rev (take 2 rand)),
              take 2 rand), drop 2 rand);
  ke_PrivateKey32 := fun ke => ke.2;
  ke_Verify := fun _ => None;
  ke_exported := fun ke => (ke.1.1, ke.1.2, []);
  KeyEntryEqual := fun a b =>
    match a, b with
    | Some x, Some y => Ok (bool_decide (x.1 = y.1))
    | None, None => Ok true
    | _, _ => Panic "invalid memory address or nil pointer dereference"
    end
|}.

#[local] Instance message_record : MessageT := {|
  Message := string * list string * bytes;
  UIDContent_SIGKEY_HASH := fun m => m.1.1;
  UIDContent_REPOURIS := fun m => m.1.2;
  UIDContent_SIGKEY_ed25519Key := fun m => m.2;
  ProtocolVersion := "1.0"
|}.

(** every identity other than [A] is mapped *)
#[local] Instance identity_lower : Identity := {|
  identity_IsMapped := fun s =>
    if decide (s = "A") then Some (ErrForeign "identity" 0) else None
|}.

(** A length-prefixed encoding of session anchors: a number is written in
    unary, a string as its length and its bytes, the key entries as their
    number and the function name and hash of each. *)
Definition enc_nat (n : nat) : bytes := replicate n x01 ++ [x00].

Definition enc_str (s : string) : bytes :=
  let b := String.list_byte_of_string s in enc_nat (length b) ++ b.

Fixpoint dec_nat (b : bytes) : option (nat * bytes) :=
  match b with
  | x00 :: r => Some (0, r)
  | x01 :: r => '(n, r') ← dec_nat r; Some (S n, r')
  | _ => None
  end.

Definition dec_str (b : bytes) : option (string * bytes) :=
  '(n, r) ← dec_nat b;
  if decide (n ≤ length r)
  then Some (String.string_of_list_byte (take n r), drop n r)
  else None.

Definition enc_key (ke : KeyEntry) : bytes :=
  enc_str (ke_FUNCTION ke) ++ enc_str (ke_HASH ke).

Fixpoint dec_keys (n : nat) (b : bytes) : option (list KeyEntry * bytes) :=
  match n with
  | 0 => Some ([], b)
  | S n' =>
      '(f, r) ← dec_str b;
      '(h, r) ← dec_str r;
      '(l, r') ← dec_keys n' r;
      Some ((f, h, []) :: l, r')
  end.

Definition enc_anchor (sa : uid.SessionAnchor) : bytes :=
  enc_str (uid.MIXADDRESS sa) ++ enc_str (uid.NYMADDRESS sa) ++
  enc_nat (length (uid.PFKEYS sa)) ++
  concat (map enc_key (uid.PFKEYS sa)).

(** A decoded address that is not valid UTF-8 is replaced by the
    replacement character U+FFFD. *)
Definition coerce (s : string) : string :=
  if utf8_ValidString s then s else String.string_of_list_byte [xef; xbf; xbd].

Definition dec_anchor (b : bytes) : res uid.SessionAnchor :=
  match
    '(mix, r) ← dec_str b;
    '(nym, r) ← dec_str r;
    '(n, r) ← dec_nat r;
    '(kes, r) ← dec_keys n r;
    if decide (r = [])
    then Some {| uid.MIXADDRESS := coerce mix;
                 uid.NYMADDRESS := coerce nym;
                 uid.PFKEYS := kes |}
    else None
  with
  | Some sa => Ok sa
  | None => Err (ErrForeign "json" 0)
  end.

#[local] Instance json_prefixed : uid.JSON := {|
  uid.marshalSorted_SessionAnchor := enc_anchor;
  uid.marshalSorted_contents := fun c =>
    enc_str (uid.VERSION c) ++ enc_str (uid.SIGKEYHASH c) ++
    enc_str (uid.REPOURI c) ++ enc_str (uid.SESSIONANCHOR c) ++
    enc_str (uid.SESSIONANCHORHASH c);
  uid.marshalSorted_KeyInit := fun ki => enc_str (uid.SIGNATURE ki);
  uid.json_Unmarshal_SessionAnchor := dec_anchor
|}.

(** A memory of session states: the states at addresses 0 and 1 have the
    same fields, the state at 2 has another message count. *)
Definition sample_state (count : Z) : session.State :=
  {| session.SenderSessionCount := 0;
     session.SenderMessageCount := count;
     session.MaxRecipientCount := 0;
     session.RecipientTemp := ("ECDHE25519", "r", []);
     session.SenderSessionPub := ("ECDHE25519", "s", []);
     session.NextSenderSessionPub := None;
     session.NextRecipientSessionPubSeen := None;
     session.NymAddress := "nym";
     session.KeyInitSession := true |}.

Definition sample_mem (a : addr) : session.State :=
  sample_state (Z.of_nat (a / 2)).

(** A store with one session between two identities, with two keys in each
    chain; the two chains have backing arrays of their own. *)
Definition key64 (b : byte) : string := String.string_of_list_byte (replicate 64 b).

Definition sample_heap : memstore.heap :=
  {[ 0 := [key64 x41; key64 x42]; 1 := [key64 x43; key64 x44] ]}.

Definition sample_send : memstore.slice :=
  {| memstore.s_arr := 0; memstore.s_off := 0; memstore.s_len := 2 |}.

Definition sample_recv : memstore.slice :=
  {| memstore.s_arr := 1; memstore.s_off := 0; memstore.s_len := 2 |}.

Definition sample_store : memstore.MemStore :=
  (memstore.StoreSession memstore.New "alice@mute.berlin" "bob@mute.berlin"
     "hash" "root" "chain" sample_send sample_recv).1.

(** The same session stored with one slice for both chains. *)
Definition sample_store_aliased : memstore.MemStore :=
  (memstore.StoreSession memstore.New "alice@mute.berlin" "bob@mute.berlin"
     "hash" "root" "chain" sample_send sample_send).1.

(** A UID message whose signing-key hash is made from a 32-byte public
    key, and the key-init message made for it at time 150. *)
Definition sample_pubKey : bytes := replicate 32 x50.

Definition sample_sigPubKey : string := base64_Encode sample_pubKey.

Definition sample_msg : Message :=
  (base64_Encode (SHA512 sample_pubKey), ["mute.berlin"], replicate 32 x50).

Definition sample_rand : Reader := [x01; x02] ++ replicate 16 x09 ++ [x03].

Definition sample_KeyInit : res ((uid.KeyInit * string * string) * Reader) :=
  uid.Message_KeyInit sample_msg 0 200 100 false
    "mute.berlin" "mix.mute.berlin" "nym" sample_rand 150 150.

Definition sample_ki : uid.KeyInit :=
  match sample_KeyInit with
  | Ok ((ki, _, _), _) => ki
  | _ => {| uid.Contents :=
              {| uid.VERSION := ""; uid.MSGCOUNT := 0; uid.NOTAFTER := 0;
                 uid.NOTBEFORE := 0; uid.FALLBACK := false;
                 uid.SIGKEYHASH := ""; uid.REPOURI := "";
                 uid.SESSIONANCHOR := ""; uid.SESSIONANCHORHASH := "" |};
            uid.SIGNATURE := "" |}
  end.

(** a key database that holds the sample message under every hash; setting
    a private key stores its bytes *)
#[local] Instance keydb_sample : KeyDB := {|
  keyDB_GetPrivateKeyInit := fun _ =>
    match sample_KeyInit with
    | Ok ((ki, _, privateKey), _) => Ok (ki, sample_sigPubKey, privateKey)
    | _ => Err (ErrForeign "keydb" 0)
    end;
  ke_SetPrivateKey := fun ke privkey =>
    Ok (ke.1, String.list_byte_of_string privkey)
|}.


Definition contents_with_times (c : uid.contents) (notafter notbefore : Z)
  : uid.contents :=
  {| uid.VERSION := uid.VERSION c; uid.MSGCOUNT := uid.MSGCOUNT c;
     uid.NOTAFTER := notafter; uid.NOTBEFORE := notbefore;
     uid.FALLBACK := uid.FALLBACK c; uid.SIGKEYHASH := uid.SIGKEYHASH c;
     uid.REPOURI := uid.REPOURI c; uid.SESSIONANCHOR := uid.SESSIONANCHOR c;
     uid.SESSIONANCHORHASH := uid.SESSIONANCHORHASH c |}.

Definition sample_ki_backwards : uid.KeyInit :=
  {| uid.Contents := contents_with_times (uid.Contents sample_ki) 100 200;
     uid.SIGNATURE := uid.SIGNATURE sample_ki |}.

(** The sample message with a session anchor of three bytes. *)
Definition sample_ki_short : uid.KeyInit :=
  {| uid.Contents :=
       {| uid.VERSION := uid.VERSION (uid.Contents sample_ki);
          uid.MSGCOUNT := uid.MSGCOUNT (uid.Contents sample_ki);
          uid.NOTAFTER := uid.NOTAFTER (uid.Contents sample_ki);
          uid.NOTBEFORE := uid.NOTBEFORE (uid.Contents sample_ki);
          uid.FALLBACK := uid.FALLBACK (uid.Contents sample_ki);
          uid.SIGKEYHASH := uid.SIGKEYHASH (uid.Contents sample_ki);
          uid.REPOURI := uid.REPOURI (uid.Contents sample_ki);
          uid.SESSIONANCHOR := "abc";
          uid.SESSIONANCHORHASH := uid.SESSIONANCHORHASH (uid.Contents sample_ki) |};
     uid.SIGNATURE := uid.SIGNATURE sample_ki |}.


Definition sample_ki_old : uid.KeyInit :=
  {| uid.Contents := contents_with_times (uid.Contents sample_ki) 120 100;
     uid.SIGNATURE := uid.SIGNATURE sample_ki |}.

End ref_inst.

(** ** What is assumed of the interfaces *)

(** Decoding an encoding gives the bytes back. *)
Class Base64Laws `{Base64} : Prop := {
  base64_Decode_Encode : ∀ b, base64_Decode (base64_Encode b) = Ok b
}.

(** A SHA-512 digest has 64 bytes. *)
Class HashLaws `{Hash} : Prop := {
  SHA512_length : ∀ b, length (SHA512 b) = 64
}.

(** The exported part of a key entry has the same function and hash. *)
Class KeyEntryLaws `{KeyEntryT} : Prop := {
  ke_exported_FUNCTION : ∀ ke, ke_FUNCTION (ke_exported ke) = ke_FUNCTION ke;
  ke_exported_HASH : ∀ ke, ke_HASH (ke_exported ke) = ke_HASH ke
}.

(** The session anchor that the JSON encoding of [sa] describes: the
    unexported fields of the key entries are not part of the encoding. *)
Definition SessionAnchor_exported `{KeyEntryT} (sa : uid.SessionAnchor)
  : uid.SessionAnchor :=
  {| uid.MIXADDRESS := uid.MIXADDRESS sa;
     uid.NYMADDRESS := uid.NYMADDRESS sa;
     uid.PFKEYS := map ke_exported (uid.PFKEYS sa) |}.

(** [encoding/json]: the strings that [json.Unmarshal] returns are valid
    UTF-8; bytes of the input that are not are replaced by U+FFFD. *)
Class JSONUtf8 `{uid.JSON} : Prop := {
  json_Unmarshal_utf8 : ∀ b sa,
    uid.json_Unmarshal_SessionAnchor b = Ok sa ->
    utf8_ValidString (uid.MIXADDRESS sa) = true ∧
    utf8_ValidString (uid.NYMADDRESS sa) = true
}.

(** Decrypting an encrypted block gives the block back, and a block is
    encrypted to a block. *)
Class BlockCipherLaws `{BlockCipher} : Prop := {
  aes_Decrypt_Encrypt : ∀ key b,
    length key = 32 -> length b = 16 -> aes_Decrypt key (aes_Encrypt key b) = b;
  aes_Encrypt_length : ∀ key b,
    length key = 32 -> length b = 16 -> length (aes_Encrypt key b) = 16
}.

(** ** Notions used in the statements *)

(** The JSON codec preserves the session anchor [sa]: decoding its encoding
    gives its exported part, and the exported part has the same encoding. *)
Definition json_preserves `{uid.JSON} (sa : uid.SessionAnchor) : Prop :=
  uid.json_Unmarshal_SessionAnchor (uid.SessionAnchor_json sa)
  = Ok (SessionAnchor_exported sa) ∧
  uid.SessionAnchor_json (SessionAnchor_exported sa) = uid.SessionAnchor_json sa.

(** The key-init message that [KeyInit] puts together from its arguments,
    the key hash [keyHash] and the two strings [sa] and [sah] of the session
    anchor. *)
Definition KeyInit_of `{uid.JSON, Base64, Hash, Ed25519, MessageT}
  (msg : Message) (msgcount notafter notbefore : Z) (fallback : bool)
  (repoURI : string) (keyHash : bytes) (sa sah : string) : uid.KeyInit :=
  let c := {| uid.VERSION := ProtocolVersion;
              uid.MSGCOUNT := msgcount;
              uid.NOTAFTER := notafter;
              uid.NOTBEFORE := notbefore;
              uid.FALLBACK := fallback;
              uid.SIGKEYHASH := base64_Encode (SHA512 keyHash);
              uid.REPOURI := repoURI;
              uid.SESSIONANCHOR := sa;
              uid.SESSIONANCHORHASH := sah |} in
  {| uid.Contents := c;
     uid.SIGNATURE :=
       base64_Encode
         (ed25519_Sign (UIDContent_SIGKEY_ed25519Key msg) (uid.contents_json c)) |}.

(** The session state that the calls [cs] leave under the key [k] of the
    map, starting from [st]: the one of the last [SetSessionState] with
    that key. *)
Definition last_set `{KeyEntryT} (k : string) (st : pointer)
  (cs : list memstore.call) : pointer :=
  fold_left
    (fun acc c =>
       match c with
       | memstore.CallSetSessionState myID contactID st' =>
           if decide (myID +:+ "@" +:+ contactID = k) then st' else acc
       | _ => acc
       end)
    cs st.

(** [c] sets a session state for the pair of identities. *)
Definition sets_pair `{KeyEntryT} (myID contactID : string) (c : memstore.call)
  : Prop :=
  ∃ st, c = memstore.CallSetSessionState myID contactID st.

(** [c] sets a session state under the key [k] of the map. *)
Definition sets_key `{KeyEntryT} (k : string) (c : memstore.call) : Prop :=
  ∃ myID contactID st,
    c = memstore.CallSetSessionState myID contactID st ∧
    myID +:+ "@" +:+ contactID = k.


(** The signature of [ki] is a valid signature of the encoding of its
    contents under the public key [sigPubKey]. *)
Definition signature_verifies `{uid.JSON, Base64, Ed25519}
  (ki : uid.KeyInit) (sigPubKey : string) : Prop :=
  ∃ sig pubKey : bytes,
    base64_Decode (uid.SIGNATURE ki) = Ok sig ∧
    base64_Decode sigPubKey = Ok pubKey ∧
    ed25519_Verify pubKey (uid.contents_json (uid.Contents ki)) sig = true.

(** The checks that [Verify] makes before it looks at the times: the
    repository URI is listed, the session anchor decrypts and matches its
    hash, and it holds a key entry for ECDHE25519 that verifies. *)
Definition anchor_checks_pass `{uid.JSON, Base64, Hash, CTR}
  (ki : uid.KeyInit) (uris : list string) (sigPubKey : string) : Prop :=
  util.ContainsString uris (uid.REPOURI (uid.Contents ki)) = true ∧
  ∃ (sa : uid.SessionAnchor) (ke : KeyEntry),
    uid.KeyInit_SessionAnchor ki sigPubKey = Ok sa ∧
    uid.SessionAnchor_KeyEntry sa "ECDHE25519" = Ok ke ∧
    ke_Verify ke = None.

(** The part of [Verify] from the time checks on. *)
Definition Verify_times_signature `{uid.JSON, Base64, Ed25519}
  (ki : uid.KeyInit) (sigPubKey : string) (now : Z) : res unit :=
  if decide (uid.NOTBEFORE (uid.Contents ki) >= uid.NOTAFTER (uid.Contents ki))%Z
  then Err ErrInvalidTimes
  else if decide (uid.NOTAFTER (uid.Contents ki) < uint64 now)%Z
  then Err ErrExpired
  else
    sig ← base64_Decode (uid.SIGNATURE ki);
    pubKey ← base64_Decode sigPubKey;
    if negb (ed25519_Verify pubKey (uid.contents_json (uid.Contents ki)) sig)
    then Err ErrInvalidKeyInitSig
    else Ok tt.

(** * Properties *)

(** ** Bytes and key streams *)

Lemma byte_xor_cancel (a b : byte) : byte_xor (byte_xor a b) b = a.
Proof.
  unfold byte_xor.
  destruct (Byte.to_bits a) as (a0 & a1 & a2 & a3 & a4 & a5 & a6 & a7) eqn:Ha.
  destruct (Byte.to_bits b) as (b0 & b1 & b2 & b3 & b4 & b5 & b6 & b7) eqn:Hb.
  rewrite Byte.to_bits_of_bits.
  rewrite !xorb_assoc, !xorb_nilpotent, !xorb_false_r.
  rewrite <- Ha. apply Byte.of_bits_to_bits.
Qed.

Lemma length_XORKeyStream (stream : nat -> byte) (src : bytes) :
  length (aes256.XORKeyStream stream src) = length src.
Proof. unfold aes256.XORKeyStream. apply length_imap. Qed.

Lemma XORKeyStream_twice (stream : nat -> byte) (src : bytes) :
  aes256.XORKeyStream stream (aes256.XORKeyStream stream src) = src.
Proof.
  unfold aes256.XORKeyStream.
  revert stream. induction src as [|b src IH]; intros stream; [done|].
  cbn [imap]. rewrite byte_xor_cancel. f_equal.
  apply (IH (stream ∘ S)).
Qed.

(** ** aes256 *)

Section ctr.
Context `{CTR}.

Lemma CTREncrypt_ok (key plaintext : bytes) (rand : Reader) :
  length key = 32 -> 16 ≤ length rand ->
  aes256.CTREncrypt key plaintext rand
  = Ok (take 16 rand
          ++ aes256.XORKeyStream (ctr_keystream key (take 16 rand)) plaintext,
        drop 16 rand).
Proof.
  intros Hk Hr. unfold aes256.CTREncrypt, io_ReadFull, aes256.BlockSize.
  rewrite decide_False by lia. rewrite decide_True by lia. done.
Qed.

Lemma CTRDecrypt_ok (key iv body : bytes) :
  length key = 32 -> length iv = 16 ->
  aes256.CTRDecrypt key (iv ++ body)
  = Ok (aes256.XORKeyStream (ctr_keystream key iv) body).
Proof.
  intros Hk Hiv. unfold aes256.CTRDecrypt, aes256.BlockSize.
  rewrite decide_False by lia.
  rewrite decide_False by (rewrite length_app; lia).
  rewrite take_app_length' by done. rewrite drop_app_length' by done. done.
Qed.

(** C10: for a 32-byte key, any plaintext and a randomness source that
    delivers 16 bytes, [CTREncrypt] returns the 16 bytes read as IV followed
    by as many bytes as the plaintext has, and [CTRDecrypt] under the same
    key gives the plaintext back. *)
Theorem CTR_roundtrip (key plaintext : bytes) (rand : Reader) :
  length key = 32 ->
  16 ≤ length rand ->
  ∃ ciphertext rand',
    aes256.CTREncrypt key plaintext rand = Ok (ciphertext, rand') ∧
    length ciphertext = 16 + length plaintext ∧
    take 16 ciphertext = take 16 rand ∧
    rand' = drop 16 rand ∧
    aes256.CTRDecrypt key ciphertext = Ok plaintext.
Proof.
  intros Hk Hr.
  assert (Hiv : length (take 16 rand) = 16) by (rewrite length_take; lia).
  eexists _, _. split; [by apply CTREncrypt_ok|].
  repeat split.
  - rewrite length_app, length_XORKeyStream. lia.
  - by rewrite take_app_length'.
  - rewrite CTRDecrypt_ok by done. by rewrite XORKeyStream_twice.
Qed.

End ctr.

Section ctr_samples.
#[local] Existing Instance ref_inst.ctr_repeat.

(** The round trip on a three-byte plaintext, with the reference key
    stream. *)
Lemma CTR_roundtrip_witness :
  ∃ ciphertext rand',
    aes256.CTREncrypt (replicate 32 x2a) [x61; x62; x63] (replicate 20 x07)
    = Ok (ciphertext, rand') ∧
    length ciphertext = 16 + 3 ∧
    take 16 ciphertext = take 16 (replicate 20 x07) ∧
    rand' = drop 16 (replicate 20 x07) ∧
    aes256.CTRDecrypt (replicate 32 x2a) ciphertext = Ok [x61; x62; x63].
Proof.
  apply (CTR_roundtrip (replicate 32 x2a) [x61; x62; x63] (replicate 20 x07)).
  - reflexivity.
  - vm_compute. lia.
Defined.

Example CTREncrypt_sample :
  aes256.CTREncrypt (replicate 32 x2a) [x61; x62; x63] (replicate 20 x07)
  = Ok (replicate 16 x07 ++ [x4b; x48; x49], replicate 4 x07).
Proof. vm_compute. reflexivity. Qed.

End ctr_samples.

(** ** Strings *)


Lemma string_app_cons (x : ascii) (a s : string) :
  String x a +:+ s = String x (a +:+ s).
Proof. reflexivity. Qed.

Lemma string_app_assoc (a b c : string) : (a +:+ b) +:+ c = a +:+ (b +:+ c).
Proof.
  induction a as [|x a IH]; [done|].
  rewrite !string_app_cons. by rewrite IH.
Qed.

(** ** session *)

Section session_keys.
Context `{Base64, Hash}.

(** The key only depends on the concatenation of the four arguments. *)
Lemma CalcKey_concat (a b c d : string) :
  session.CalcKey a b c d
  = base64_Encode (SHA512 (bytes_of_string (a +:+ b +:+ c +:+ d))).
Proof.
  unfold session.CalcKey. cbn zeta. by rewrite string_app_assoc.
Qed.

(** C5: the session key is computed from the plain concatenation of the
    four arguments, so moving characters across any of the three argument
    boundaries gives the same key, and there are two different argument
    tuples with the same session key. *)
Theorem CalcKey_ambiguous :
  (∀ a b c d x : string,
     session.CalcKey (a +:+ x) b c d = session.CalcKey a (x +:+ b) c d ∧
     session.CalcKey a (b +:+ x) c d = session.CalcKey a b (x +:+ c) d ∧
     session.CalcKey a b (c +:+ x) d = session.CalcKey a b c (x +:+ d)) ∧
  ∃ t t' : string * string * string * string,
    t ≠ t' ∧
    session.CalcKey t.1.1.1 t.1.1.2 t.1.2 t.2
    = session.CalcKey t'.1.1.1 t'.1.1.2 t'.1.2 t'.2.
Proof.
  split.
  - intros a b c d x. rewrite !CalcKey_concat.
    repeat split; do 3 f_equal; by rewrite ?string_app_assoc.
  - exists ("ab", "c", "", ""), ("a", "bc", "", ""). split; [discriminate|].
    by rewrite !CalcKey_concat.
Qed.

End session_keys.

Section state_equal.
Context `{KeyEntryT}.

(** C8: on two nil pointers [StateEqual] returns true; when exactly one of
    the two pointers is nil the call panics on the nil pointer
    dereference, whatever the other state is. *)
Theorem StateEqual_nil (mem : addr -> session.State) :
  session.StateEqual mem None None = Ok true ∧
  ∀ s : addr,
    session.StateEqual mem None (Some s)
    = Panic "invalid memory address or nil pointer dereference" ∧
    session.StateEqual mem (Some s) None
    = Panic "invalid memory address or nil pointer dereference".
Proof.
  split; [reflexivity|].
  intros s. unfold session.StateEqual.
  rewrite !decide_False by discriminate. done.
Qed.

(** A pointer is equal to itself without any field being read. *)
Lemma StateEqual_same (mem : addr -> session.State) (a : pointer) :
  session.StateEqual mem a a = Ok true.
Proof. unfold session.StateEqual. by rewrite decide_True. Qed.

End state_equal.

Section state_samples.
#[local] Existing Instance ref_inst.key_entry_triple.

Example StateEqual_fields :
  session.StateEqual ref_inst.sample_mem (Some 0) (Some 1) = Ok true ∧
  session.StateEqual ref_inst.sample_mem (Some 0) (Some 2) = Ok false ∧
  session.StateEqual ref_inst.sample_mem (Some 2) None
  = Panic "invalid memory address or nil pointer dereference".
Proof. repeat split; vm_compute; reflexivity. Qed.

End state_samples.

(** ** uid: consistency check *)

(** C7: [Check] returns no error exactly when the version is ["1.0"] and
    the message count is 0; on every other key-init message it returns an
    error. *)
Theorem KeyInit_Check_iff (ki : uid.KeyInit) :
  (uid.KeyInit_Check ki = None
   ↔ uid.VERSION (uid.Contents ki) = "1.0" ∧ uid.MSGCOUNT (uid.Contents ki) = 0%Z) ∧
  (uid.KeyInit_Check ki ≠ None
   ↔ ¬ (uid.VERSION (uid.Contents ki) = "1.0"
        ∧ uid.MSGCOUNT (uid.Contents ki) = 0%Z)).
Proof.
  unfold uid.KeyInit_Check, uid.KeyInit_checkV1_0.
  destruct (decide (uid.VERSION (uid.Contents ki) ≠ "1.0")) as [Hv|Hv];
    [|destruct (decide (uid.MSGCOUNT (uid.Contents ki) ≠ 0%Z)) as [Hm|Hm]].
  - intuition congruence.
  - intuition congruence.
  - apply dec_stable in Hv. apply dec_stable in Hm. intuition congruence.
Qed.

Example KeyInit_Check_unknown_version :
  uid.KeyInit_Check
    {| uid.Contents := {| uid.VERSION := "2.0"; uid.MSGCOUNT := 0;
         uid.NOTAFTER := 2; uid.NOTBEFORE := 1; uid.FALLBACK := false;
         uid.SIGKEYHASH := ""; uid.REPOURI := ""; uid.SESSIONANCHOR := "";
         uid.SESSIONANCHORHASH := "" |};
       uid.SIGNATURE := "" |}
  = Some (errors_New "uid: unknown ki.Contents.VERSION: 2.0").
Proof. reflexivity. Qed.

(** ** memstore *)

Section slices.
Import memstore.

(** Writing an element that can be read succeeds, and the element read
    afterwards is the one written. *)
Lemma slice_set_get (h : heap) (s : slice) (i : nat) (v w : string) :
  slice_get h s i = Ok v ->
  ∃ h', slice_set h s i w = Ok h' ∧ slice_get h' s i = Ok w.
Proof.
  unfold slice_get, slice_set. intros Hget.
  destruct (decide (i < s_len s)) as [Hi|]; [|done].
  destruct (h !! s_arr s) as [a|] eqn:Ha; [|done]. cbn in Hget.
  destruct (a !! (s_off s + i)) as [x|] eqn:Hx; [|done].
  apply lookup_lt_Some in Hx.
  rewrite decide_True by done. eexists. split; [done|].
  rewrite lookup_insert_eq. cbn.
  by rewrite list_lookup_insert_eq.
Qed.

End slices.

Section store.
Context `{KeyEntryT}.
Import memstore.

(** The key under which a session is stored. *)
Abbreviation session_index myID contactID senderSessionPubHash :=
  (myID +:+ "@" +:+ contactID +:+ "@" +:+ senderSessionPubHash) (only parsing).

Section message_keys.
Context `{Base64}.

Lemma GetMessageKey_out_of_bounds (h : heap) (ms : MemStore)
  (myID contactID pubHash : string) (sender : bool) (j : nat) (s : memSession) :
  sessions ms !! session_index myID contactID pubHash = Some s ->
  s_len (send s) ≤ j ->
  GetMessageKey h ms myID contactID pubHash sender j
  = Err (errors_New "memstore: message index out of bounds").
Proof.
  intros Hs Hj. unfold GetMessageKey. cbn zeta. rewrite Hs.
  by rewrite decide_True.
Qed.

Lemma GetMessageKey_Ok_inv (h : heap) (ms : MemStore)
  (myID contactID pubHash : string) (sender : bool) (i : nat) (key : bytes) :
  GetMessageKey h ms myID contactID pubHash sender i = Ok key ->
  ∃ s k,
    sessions ms !! session_index myID contactID pubHash = Some s ∧
    i < s_len (send s) ∧
    slice_get h (if sender then send s else recv s) i = Ok k ∧
    k ≠ "".
Proof.
  unfold GetMessageKey. cbn zeta.
  destruct (sessions ms !! _) as [s|]; [|done].
  destruct (decide (s_len (send s) ≤ i)); [done|].
  intros Hget. exists s.
  destruct sender; cbn in Hget.
  - destruct (slice_get h (send s) i) as [k| |]; cbn in Hget; try done.
    destruct (decide (k = "")); [done|]. exists k. repeat split; [lia|done..].
  - destruct (slice_get h (recv s) i) as [k| |]; cbn in Hget; try done.
    destruct (decide (k = "")); [done|]. exists k. repeat split; [lia|done..].
Qed.

(** C1: when [GetMessageKey] returns the key at an index, [DelMessageKey]
    at that index succeeds and [GetMessageKey] at the index then returns
    [ErrMessageKeyUsed]; at an index that is not below the length of the
    chain [GetMessageKey] returns the out-of-bounds error, which is a
    different error. *)
Theorem message_key_at_most_once (h : heap) (ms : MemStore)
  (myID contactID pubHash : string) (sender : bool) (i : nat) :
  (∀ key : bytes,
     GetMessageKey h ms myID contactID pubHash sender i = Ok key ->
     ∃ h' : heap,
       DelMessageKey h ms myID contactID pubHash sender i = (h', Ok tt) ∧
       GetMessageKey h' ms myID contactID pubHash sender i
       = Err ErrMessageKeyUsed) ∧
  (∀ (s : memSession) (j : nat),
     sessions ms !! session_index myID contactID pubHash = Some s ->
     s_len (send s) ≤ j ->
     GetMessageKey h ms myID contactID pubHash sender j
     = Err (errors_New "memstore: message index out of bounds")) ∧
  errors_New "memstore: message index out of bounds" ≠ ErrMessageKeyUsed.
Proof.
  split; [|split; [|discriminate]].
  - intros key Hget.
    destruct (GetMessageKey_Ok_inv _ _ _ _ _ _ _ _ Hget) as (s & k & Hs & Hi & Hk & _).
    destruct (slice_set_get _ _ _ _ "" Hk) as (h' & Hset & Hget').
    exists h'. unfold DelMessageKey, GetMessageKey. cbn zeta. rewrite Hs.
    rewrite !decide_False by lia. rewrite Hset. split; [done|].
    destruct sender; rewrite Hget'; cbn; by rewrite decide_True.
  - intros s j Hs Hj. by eapply GetMessageKey_out_of_bounds.
Qed.

End message_keys.

Section store_session.
Context `{Identity}.

Lemma StoreSession_sessions (ms : MemStore)
  (myID contactID pubHash rootKeyHash chainKey : string) (snd rcv : slice)
  (k : string) (s : memSession) :
  sessions (StoreSession ms myID contactID pubHash rootKeyHash chainKey snd rcv).1
    !! k = Some s ->
  sessions ms !! k = Some s ∨ s_len (send s) = s_len (recv s).
Proof.
  unfold StoreSession.
  destruct (identity_IsMapped myID); [by left|].
  destruct (identity_IsMapped contactID); [by left|].
  destruct (decide (s_len snd ≠ s_len rcv)) as [|Heq]; [by left|].
  apply dec_stable in Heq. cbn.
  destruct (decide (session_index myID contactID pubHash = k)) as [->|Hne].
  - rewrite lookup_insert_eq. intros [= <-]. by right.
  - rewrite lookup_insert_ne by done. by left.
Qed.

Lemma exec_sessions (ms ms' : MemStore) (c : call) (k : string) (s : memSession) :
  exec ms c = Ok ms' ->
  sessions ms' !! k = Some s ->
  sessions ms !! k = Some s ∨ s_len (send s) = s_len (recv s).
Proof.
  destruct c as [ke|identity ke|myID contactID st|
                 myID contactID pubHash rootKeyHash chainKey snd rcv]; cbn.
  - destruct ke; [|done]. intros [= <-]. by left.
  - intros [= <-]. by left.
  - destruct st; [|done]. intros [= <-]. by left.
  - intros [= <-]. apply StoreSession_sessions.
Qed.

(** In every store built from the given one by calls of its methods, the
    two chains of a session have the same length if that holds in the given
    store. *)
Lemma run_sessions_parallel (cs : list call) (ms ms' : MemStore) :
  (∀ k s, sessions ms !! k = Some s -> s_len (send s) = s_len (recv s)) ->
  run ms cs = Ok ms' ->
  ∀ k s, sessions ms' !! k = Some s -> s_len (send s) = s_len (recv s).
Proof.
  revert ms. induction cs as [|c cs IH]; intros ms Hinv; cbn.
  - by intros [= <-].
  - destruct (exec ms c) as [ms1| |] eqn:Hexec; cbn; [|done..].
    apply IH. intros k s Hs.
    destruct (exec_sessions _ _ _ _ _ Hexec Hs) as [Hold|]; [|done].
    by eapply Hinv.
Qed.

(** C6: a call of [StoreSession] with chains of different lengths returns
    an error and leaves the store as it was (for mapped identities the
    error is the length error); the sessions of a store built from [New]
    therefore have chains of equal length; and [NumOfFutureKeys] is 50. *)
Theorem StoreSession_length_mismatch (ms : MemStore)
  (myID contactID pubHash rootKeyHash chainKey : string) (snd rcv : slice) :
  s_len snd ≠ s_len rcv ->
  (∃ err : error,
     StoreSession ms myID contactID pubHash rootKeyHash chainKey snd rcv
     = (ms, Some err)) ∧
  (identity_IsMapped myID = None -> identity_IsMapped contactID = None ->
   StoreSession ms myID contactID pubHash rootKeyHash chainKey snd rcv
   = (ms, Some (errors_New "memstore: len(send) != len(recv)"))) ∧
  (∀ (cs : list call) (ms' : MemStore),
     run New cs = Ok ms' ->
     ∀ k s, sessions ms' !! k = Some s -> s_len (send s) = s_len (recv s)) ∧
  msg.NumOfFutureKeys = 50.
Proof.
  intros Hlen. unfold StoreSession. repeat split.
  - destruct (identity_IsMapped myID); [by eexists|].
    destruct (identity_IsMapped contactID); [by eexists|].
    rewrite decide_True by done. by eexists.
  - intros -> ->. by rewrite decide_True.
  - intros cs ms'. apply run_sessions_parallel. intros k s. cbn.
    by rewrite lookup_empty.
Qed.

End store_session.

(** *** Session states *)

Lemma sets_pair_key (myID contactID : string) (c : call) :
  sets_pair myID contactID c -> sets_key (myID +:+ "@" +:+ contactID) c.
Proof. intros [st ->]. by exists myID, contactID, st. Qed.


Section session_states.
Context `{Identity}.







End session_states.

End store.

(** *** The store on the sample data *)

Section store_samples.
#[local] Existing Instance ref_inst.base64_id.
#[local] Existing Instance ref_inst.key_entry_triple.
#[local] Existing Instance ref_inst.identity_lower.

(** The second send key of the sample store is returned, deleted, and
    then reported as used. *)
Lemma message_key_at_most_once_witness :
  memstore.GetMessageKey ref_inst.sample_heap ref_inst.sample_store
    "alice@mute.berlin" "bob@mute.berlin" "hash" true 1
  = Ok (replicate 64 x42) ∧
  ∃ h' : memstore.heap,
    memstore.DelMessageKey ref_inst.sample_heap ref_inst.sample_store
      "alice@mute.berlin" "bob@mute.berlin" "hash" true 1 = (h', Ok tt) ∧
    memstore.GetMessageKey h' ref_inst.sample_store
      "alice@mute.berlin" "bob@mute.berlin" "hash" true 1
    = Err ErrMessageKeyUsed.
Proof.
  split; [vm_compute; reflexivity|].
  apply (proj1 (message_key_at_most_once
                  ref_inst.sample_heap ref_inst.sample_store
                  "alice@mute.berlin" "bob@mute.berlin" "hash" true 1)
               (replicate 64 x42)).
  vm_compute. reflexivity.
Defined.

(** A call with chains of lengths 2 and 1 on the empty store. *)
Lemma StoreSession_length_mismatch_witness :
  ∃ err : error,
    memstore.StoreSession memstore.New
      "alice@mute.berlin" "bob@mute.berlin" "hash" "root" "chain"
      ref_inst.sample_send
      {| memstore.s_arr := 1; memstore.s_off := 0; memstore.s_len := 1 |}
    = (memstore.New, Some err).
Proof.
  apply (StoreSession_length_mismatch memstore.New
           "alice@mute.berlin" "bob@mute.berlin" "hash" "root" "chain"
           ref_inst.sample_send
           {| memstore.s_arr := 1; memstore.s_off := 0; memstore.s_len := 1 |}).
  vm_compute. lia.
Defined.


Example GetSessionState_collision_run :
  ∃ ms, memstore.SetSessionState memstore.New "a@b" "c" (Some 7) = Ok ms ∧
        memstore.GetSessionState ms "a" "b@c" = (Some 7, None).
Proof. eexists. split; [reflexivity|]. vm_compute. reflexivity. Qed.


End store_samples.

(** ** uid: key-init messages *)

Lemma slice_to_ok (b : bytes) (n : nat) :
  n ≤ length b -> uid.slice_to b n = Ok (take n b).
Proof. intros Hn. unfold uid.slice_to. by rewrite decide_False by lia. Qed.

Section keyinit.
Context `{uid.JSON, Base64, Hash, CTR, Ed25519, MessageT}.

(** *** Creation and decryption of the session anchor *)

Section roundtrip.
Context `{!Base64Laws, !HashLaws, !KeyEntryLaws}.

Lemma SHA512_key32 (b : bytes) :
  uid.slice_to (SHA512 b) 32 = Ok (take 32 (SHA512 b)) ∧
  length (take 32 (SHA512 b)) = 32.
Proof.
  pose proof (SHA512_length b) as Hlen. split.
  - apply slice_to_ok. lia.
  - rewrite length_take. lia.
Qed.

(** What [sessionAnchor] returns under a 64-byte key when the key entry
    can be made and 16 bytes of randomness are left for the IV. *)
Lemma Message_sessionAnchor_ok (key : bytes) (mixaddress nymaddress : string)
  (rand rand1 : Reader) (ke : KeyEntry) :
  32 ≤ length key ->
  ke_InitDHKey ke_zero rand = Ok (ke, rand1) ->
  16 ≤ length rand1 ->
  uid.Message_sessionAnchor key mixaddress nymaddress rand
  = Ok ((base64_Encode
           (take 16 rand1 ++
            aes256.XORKeyStream (ctr_keystream (take 32 key) (take 16 rand1))
              (uid.SessionAnchor_json
                 {| uid.MIXADDRESS := mixaddress;
                    uid.NYMADDRESS := nymaddress;
                    uid.PFKEYS := [ke] |})),
         base64_Encode (SHA512 (uid.SessionAnchor_json
                 {| uid.MIXADDRESS := mixaddress;
                    uid.NYMADDRESS := nymaddress;
                    uid.PFKEYS := [ke] |})),
         ke_HASH ke,
         base64_Encode (ke_PrivateKey32 ke)),
        drop 16 rand1).
Proof.
  intros Hkey Hinit Hrand. unfold uid.Message_sessionAnchor.
  rewrite Hinit. cbn. rewrite slice_to_ok by done. cbn.
  rewrite CTREncrypt_ok by (rewrite ?length_take; lia). done.
Qed.

(** An anchor that the JSON codec preserves is recovered from a key-init
    message whose three anchor fields were made from it. *)
Lemma KeyInit_SessionAnchor_ok (ki : uid.KeyInit) (sigPubKey : string)
  (pubKey iv : bytes) (sa : uid.SessionAnchor) :
  json_preserves sa ->
  base64_Decode sigPubKey = Ok pubKey ->
  length iv = 16 ->
  uid.SIGKEYHASH (uid.Contents ki) = base64_Encode (SHA512 (SHA512 pubKey)) ->
  uid.SESSIONANCHOR (uid.Contents ki)
  = base64_Encode
      (iv ++ aes256.XORKeyStream
               (ctr_keystream (take 32 (SHA512 pubKey)) iv)
               (uid.SessionAnchor_json sa)) ->
  uid.SESSIONANCHORHASH (uid.Contents ki)
  = base64_Encode (SHA512 (uid.SessionAnchor_json sa)) ->
  uid.KeyInit_SessionAnchor ki sigPubKey = Ok (SessionAnchor_exported sa).
Proof.
  intros [Hdec Henc] Hpub Hiv Hkh Hsa Hsah. unfold uid.KeyInit_SessionAnchor.
  destruct (SHA512_key32 pubKey) as [Hslice Hlen].
  rewrite Hpub. cbn. rewrite Hkh, decide_False by (by intros []).
  rewrite Hsa, base64_Decode_Encode. cbn. rewrite Hslice. cbn.
  rewrite CTRDecrypt_ok by done. cbn. rewrite XORKeyStream_twice.
  rewrite Hdec. cbn [mbind res_bind]. rewrite Henc, Hsah.
  by rewrite decide_False by (by intros []).
Qed.


End roundtrip.

(** What [SessionAnchor] returns was decoded by [json.Unmarshal]: its
    addresses are valid UTF-8. *)
Lemma KeyInit_SessionAnchor_utf8 `{!JSONUtf8} (ki : uid.KeyInit)
  (sigPubKey : string) (sa : uid.SessionAnchor) :
  uid.KeyInit_SessionAnchor ki sigPubKey = Ok sa ->
  utf8_ValidString (uid.MIXADDRESS sa) = true ∧
  utf8_ValidString (uid.NYMADDRESS sa) = true.
Proof.
  unfold uid.KeyInit_SessionAnchor.
  destruct (base64_Decode sigPubKey) as [pubKey| |]; [|done..].
  cbn [mbind res_bind].
  destruct (decide _); [done|].
  destruct (base64_Decode _) as [enc| |]; [|done..]. cbn [mbind res_bind].
  destruct (uid.slice_to _ _) as [key| |]; [|done..]. cbn [mbind res_bind].
  destruct (aes256.CTRDecrypt key enc) as [txt| |]; [|done..].
  cbn [mbind res_bind].
  destruct (uid.json_Unmarshal_SessionAnchor txt) as [sa'| |] eqn:Hdec; [|done..].
  cbn [mbind res_bind].
  destruct (decide _); [done|]. intros [= <-].
  by apply (json_Unmarshal_utf8 txt).
Qed.

(** *** Verification *)

Lemma Verify_after_anchor (ki : uid.KeyInit) (uris : list string)
  (sigPubKey : string) (now : Z) :
  anchor_checks_pass ki uris sigPubKey ->
  uid.KeyInit_Verify ki uris sigPubKey now = Verify_times_signature ki sigPubKey now.
Proof.
  intros (Huri & sa & ke & Hsa & Hke & Hver). unfold uid.KeyInit_Verify.
  rewrite Huri. cbn [negb]. rewrite Hsa. cbn [mbind res_bind].
  rewrite Hke. cbn [mbind res_bind]. rewrite Hver. reflexivity.
Qed.

Lemma Verify_Ok_anchor (ki : uid.KeyInit) (uris : list string)
  (sigPubKey : string) (now : Z) :
  uid.KeyInit_Verify ki uris sigPubKey now = Ok tt ->
  anchor_checks_pass ki uris sigPubKey.
Proof.
  unfold uid.KeyInit_Verify, anchor_checks_pass.
  destruct (util.ContainsString uris _); [|done]. cbn [negb].
  destruct (uid.KeyInit_SessionAnchor ki sigPubKey) as [sa| |] eqn:Hsa; [|done..].
  cbn [mbind res_bind].
  destruct (uid.SessionAnchor_KeyEntry sa "ECDHE25519") as [ke| |] eqn:Hke;
    [|done..].
  cbn [mbind res_bind].
  destruct (ke_Verify ke) eqn:Hver; [done|]. intros _.
  split; [done|]. by exists sa, ke.
Qed.

Lemma Verify_times_signature_Ok (ki : uid.KeyInit) (sigPubKey : string) (now : Z) :
  Verify_times_signature ki sigPubKey now = Ok tt ->
  (uid.NOTBEFORE (uid.Contents ki) < uid.NOTAFTER (uid.Contents ki))%Z ∧
  (uint64 now ≤ uid.NOTAFTER (uid.Contents ki))%Z ∧
  signature_verifies ki sigPubKey.
Proof.
  unfold Verify_times_signature, signature_verifies.
  destruct (decide (_ >= _)%Z); [done|].
  destruct (decide (_ < _)%Z); [done|].
  destruct (base64_Decode (uid.SIGNATURE ki)) as [sig| |] eqn:Hsig; [|done..].
  destruct (base64_Decode sigPubKey) as [pubKey| |] eqn:Hpub; [|done..].
  cbn [mbind res_bind].
  destruct (ed25519_Verify pubKey _ sig) eqn:Hv; [|done]. intros _.
  repeat split; [lia..|]. by exists sig, pubKey.
Qed.

(** [Verify] accepts exactly the key-init messages that pass all checks. *)
Lemma Verify_Ok_iff (ki : uid.KeyInit) (uris : list string)
  (sigPubKey : string) (now : Z) :
  uid.KeyInit_Verify ki uris sigPubKey now = Ok tt
  ↔ anchor_checks_pass ki uris sigPubKey ∧
    (uid.NOTBEFORE (uid.Contents ki) < uid.NOTAFTER (uid.Contents ki))%Z ∧
    (uint64 now ≤ uid.NOTAFTER (uid.Contents ki))%Z ∧
    signature_verifies ki sigPubKey.
Proof.
  split.
  - intros Hok. pose proof (Verify_Ok_anchor _ _ _ _ Hok) as Hanchor.
    split; [done|]. rewrite Verify_after_anchor in Hok by done.
    by apply Verify_times_signature_Ok.
  - intros (Hanchor & Hnb & Hna & sig & pubKey & Hsig & Hpub & Hv).
    rewrite Verify_after_anchor by done. unfold Verify_times_signature.
    rewrite !decide_False by lia. rewrite Hsig, Hpub. cbn [mbind res_bind].
    by rewrite Hv.
Qed.


(** C4, as amended: a key-init message whose NOTBEFORE is not before its
    NOTAFTER, or whose NOTAFTER is before the current time, is never
    accepted; when the checks made before the time checks pass, the error
    is [ErrInvalidTimes] in the first case and [ErrExpired] for a
    well-ordered window that has run out. *)
Theorem KeyInit_Verify_times (ki : uid.KeyInit) (uris : list string)
  (sigPubKey : string) (now : Z) :
  ((uid.NOTBEFORE (uid.Contents ki) >= uid.NOTAFTER (uid.Contents ki))%Z ∨
   (uid.NOTAFTER (uid.Contents ki) < uint64 now)%Z ->
   uid.KeyInit_Verify ki uris sigPubKey now ≠ Ok tt) ∧
  (anchor_checks_pass ki uris sigPubKey ->
   (uid.NOTBEFORE (uid.Contents ki) >= uid.NOTAFTER (uid.Contents ki))%Z ->
   uid.KeyInit_Verify ki uris sigPubKey now = Err ErrInvalidTimes) ∧
  (anchor_checks_pass ki uris sigPubKey ->
   (uid.NOTBEFORE (uid.Contents ki) < uid.NOTAFTER (uid.Contents ki))%Z ->
   (uid.NOTAFTER (uid.Contents ki) < uint64 now)%Z ->
   uid.KeyInit_Verify ki uris sigPubKey now = Err ErrExpired).
Proof.
  split; [|split].
  - intros Hbad Hok. apply Verify_Ok_iff in Hok as (_ & Hnb & Hna & _). lia.
  - intros Hanchor Hnb. rewrite Verify_after_anchor by done.
    unfold Verify_times_signature. by rewrite decide_True.
  - intros Hanchor Hnb Hna. rewrite Verify_after_anchor by done.
    unfold Verify_times_signature.
    rewrite decide_False by lia. by rewrite decide_True.
Qed.

(** Whatever else holds of the message, an unlisted repository URI is
    reported first. *)
Lemma Verify_unlisted (ki : uid.KeyInit) (uris : list string)
  (sigPubKey : string) (now : Z) :
  util.ContainsString uris (uid.REPOURI (uid.Contents ki)) = false ->
  uid.KeyInit_Verify ki uris sigPubKey now = Err ErrRepoURI.
Proof. intros Huri. unfold uid.KeyInit_Verify. by rewrite Huri. Qed.

End keyinit.

(** *** The reference instance satisfies what is assumed *)

Section reference_laws.
Import ref_inst.
#[local] Existing Instance base64_id.
#[local] Existing Instance hash_prefix.
#[local] Existing Instance key_entry_triple.
#[local] Existing Instance json_prefixed.

Lemma base64_id_laws : Base64Laws.
Proof.
  split. intros b.
  change (Ok (String.list_byte_of_string (String.string_of_list_byte b)) = Ok b).
  by rewrite String.list_byte_of_string_of_list_byte.
Qed.

Lemma hash_prefix_laws : HashLaws.
Proof.
  split. intros b.
  change (length (take 64 (b ++ replicate 64 x00)) = 64).
  rewrite length_take, length_app, length_replicate. lia.
Qed.

Lemma key_entry_triple_laws : KeyEntryLaws.
Proof. by split. Qed.

Lemma dec_nat_enc (n : nat) (r : bytes) : dec_nat (enc_nat n ++ r) = Some (n, r).
Proof.
  unfold enc_nat. induction n as [|n IH]; [done|].
  cbn. cbn in IH. by rewrite IH.
Qed.

Lemma dec_str_enc (s : string) (r : bytes) : dec_str (enc_str s ++ r) = Some (s, r).
Proof.
  unfold dec_str, enc_str. cbn zeta. rewrite <- (assoc_L (++)), dec_nat_enc. cbn.
  rewrite decide_True by (rewrite length_app; lia).
  rewrite take_app_length, drop_app_length.
  by rewrite String.string_of_list_byte_of_string.
Qed.

Lemma dec_keys_enc (kes : list KeyEntry) (r : bytes) :
  dec_keys (length kes) (concat (map enc_key kes) ++ r)
  = Some (map ke_exported kes, r).
Proof.
  induction kes as [|ke kes IH]; [done|].
  cbn [length map concat dec_keys]. unfold enc_key at 1.
  rewrite <- !(assoc_L (++)), dec_str_enc. cbn [mbind option_bind].
  rewrite dec_str_enc. cbn [mbind option_bind]. by rewrite IH.
Qed.

Lemma coerce_valid (s : string) : utf8_ValidString (coerce s) = true.
Proof.
  unfold coerce. destruct (utf8_ValidString s) eqn:Hs; [done|].
  vm_compute. reflexivity.
Qed.

Lemma json_prefixed_utf8 : JSONUtf8.
Proof.
  split. intros b sa.
  cbn [uid.json_Unmarshal_SessionAnchor json_prefixed]. unfold dec_anchor.
  destruct (dec_str b) as [[mix r1]|]; [|done]. cbn [mbind option_bind].
  destruct (dec_str r1) as [[nym r2]|]; [|done]. cbn [mbind option_bind].
  destruct (dec_nat r2) as [[n r3]|]; [|done]. cbn [mbind option_bind].
  destruct (dec_keys n r3) as [[kes r4]|]; [|done]. cbn [mbind option_bind].
  destruct (decide (r4 = [])); [|done]. intros [= <-].
  split; apply coerce_valid.
Qed.

(** The reference codec preserves the anchors whose two addresses are
    valid UTF-8. *)
Lemma json_prefixed_preserves (sa : uid.SessionAnchor) :
  utf8_ValidString (uid.MIXADDRESS sa) = true ->
  utf8_ValidString (uid.NYMADDRESS sa) = true ->
  json_preserves sa.
Proof.
  destruct sa as [mix nym kes]. cbn [uid.MIXADDRESS uid.NYMADDRESS].
  intros Hmix Hnym. unfold json_preserves, uid.SessionAnchor_json.
  cbn [uid.json_Unmarshal_SessionAnchor uid.marshalSorted_SessionAnchor
       json_prefixed].
  split.
  - unfold dec_anchor, enc_anchor. cbn [uid.MIXADDRESS uid.NYMADDRESS uid.PFKEYS].
    rewrite dec_str_enc. cbn [mbind option_bind].
    rewrite dec_str_enc. cbn [mbind option_bind].
    rewrite dec_nat_enc. cbn [mbind option_bind].
    rewrite <- (app_nil_r (concat _)), dec_keys_enc. cbn [mbind option_bind].
    rewrite decide_True by done. unfold coerce. by rewrite Hmix, Hnym.
  - unfold enc_anchor, SessionAnchor_exported.
    cbn [uid.MIXADDRESS uid.NYMADDRESS uid.PFKEYS].
    rewrite length_map. do 4 f_equal. rewrite <- list_fmap_compose.
    by apply list_fmap_ext.
Qed.

End reference_laws.

(** *** Key-init messages on the sample data *)

Section keyinit_samples.
Import ref_inst.
#[local] Existing Instance base64_id.
#[local] Existing Instance hash_prefix.
#[local] Existing Instance ctr_repeat.
#[local] Existing Instance ed25519_echo.
#[local] Existing Instance key_entry_triple.
#[local] Existing Instance message_record.
#[local] Existing Instance json_prefixed.
#[local] Existing Instance base64_id_laws.
#[local] Existing Instance hash_prefix_laws.
#[local] Existing Instance json_prefixed_utf8.
#[local] Existing Instance key_entry_triple_laws.

Example sample_KeyInit_ok :
  ∃ sa sah sig,
    sample_KeyInit
    = Ok (({| uid.Contents :=
                {| uid.VERSION := "1.0"; uid.MSGCOUNT := 0; uid.NOTAFTER := 200;
                   uid.NOTBEFORE := 100; uid.FALLBACK := false;
                   uid.SIGKEYHASH := base64_Encode (SHA512 (SHA512 sample_pubKey));
                   uid.REPOURI := "mute.berlin";
                   uid.SESSIONANCHOR := sa; uid.SESSIONANCHORHASH := sah |};
              uid.SIGNATURE := sig |},
           base64_Encode [x02; x01], base64_Encode [x01; x02]), [x03]).
Proof. eexists _, _, _. vm_compute. reflexivity. Qed.

Example sample_ki_verifies :
  uid.KeyInit_Verify sample_ki ["mute.berlin"] sample_sigPubKey 150 = Ok tt.
Proof. vm_compute. reflexivity. Qed.


(** The claim as C2 words it, for any mix and nym address, fails for every
    JSON codec whose decoder returns valid UTF-8 only, as [encoding/json]
    does: the mix address that is the single byte 0xff is not valid UTF-8,
    so [SessionAnchor] cannot return it. *)
Lemma SessionAnchor_roundtrip_not_utf8 :
  ¬ (∀ (J : uid.JSON), @JSONUtf8 _ J ->
     ∀ (msg : Message) (msgcount notafter notbefore : Z) (fallback : bool)
       (repoURI mixaddress nymaddress sigPubKey : string)
       (rand rand1 : Reader) (now1 now2 : Z) (pubKey : bytes) (ke : KeyEntry),
       (notbefore < notafter)%Z ->
       (uint64 now1 ≤ notafter)%Z ->
       (notafter ≤ uint64 (uint64 now2 + uid.MaxNotAfter))%Z ->
       UIDContent_REPOURIS msg !! 0 = Some repoURI ->
       base64_Decode sigPubKey = Ok pubKey ->
       UIDContent_SIGKEY_HASH msg = base64_Encode (SHA512 pubKey) ->
       ke_InitDHKey ke_zero rand = Ok (ke, rand1) ->
       16 ≤ length rand1 ->
       ∃ (ki : uid.KeyInit) (sa : uid.SessionAnchor),
         @uid.Message_KeyInit _ J _ _ _ _ _ msg msgcount notafter notbefore
           fallback repoURI mixaddress nymaddress rand now1 now2
         = Ok ((ki, ke_HASH ke, base64_Encode (ke_PrivateKey32 ke)),
               drop 16 rand1) ∧
         @uid.KeyInit_SessionAnchor _ J _ _ _ ki sigPubKey = Ok sa ∧
         uid.MIXADDRESS sa = mixaddress ∧
         uid.NYMADDRESS sa = nymaddress).
Proof.
  intros Hclaim.
  destruct (Hclaim json_prefixed json_prefixed_utf8 sample_msg
              0%Z 200%Z 100%Z false
              "mute.berlin" (String.string_of_list_byte [xff]) "nym"
              sample_sigPubKey
              sample_rand (replicate 16 x09 ++ [x03]) 150%Z 150%Z sample_pubKey
              (("ECDHE25519", base64_Encode [x02; x01], [x01; x02])
               : @KeyEntry key_entry_triple))
    as (ki & sa & _ & Hsa & Hmix & _).
  - lia.
  - vm_compute. discriminate.
  - vm_compute. discriminate.
  - reflexivity.
  - vm_compute. reflexivity.
  - vm_compute. reflexivity.
  - vm_compute. reflexivity.
  - vm_compute. lia.
  - apply KeyInit_SessionAnchor_utf8 in Hsa as [Hvalid _].
    rewrite Hmix in Hvalid. vm_compute in Hvalid. discriminate.
Qed.

(** On the reference codec, whose decoder puts U+FFFD for such an address,
    the decoded anchor has another encoding than the generated one, and
    [SessionAnchor] reports the hash. *)
Example SessionAnchor_not_utf8_run :
  ∃ ki r,
    uid.Message_KeyInit sample_msg 0 200 100 false
      "mute.berlin" (String.string_of_list_byte [xff]) "nym" sample_rand 150 150
    = Ok (ki, r) ∧
    uid.KeyInit_SessionAnchor ki.1.1 sample_sigPubKey = Err ErrSessionAnchor.
Proof. eexists _, _. split; vm_compute; reflexivity. Qed.



(** The claim as C4 words it, that a window with NOTBEFORE not before
    NOTAFTER always gives [ErrInvalidTimes] and a NOTAFTER in the past
    always gives [ErrExpired], fails: with a repository URI that is not
    listed the error is [ErrRepoURI]. *)
Lemma Verify_times_not_first :
  ¬ (∀ (ki : uid.KeyInit) (uris : list string) (sigPubKey : string) (now : Z),
       ((uid.NOTBEFORE (uid.Contents ki) >= uid.NOTAFTER (uid.Contents ki))%Z ->
        uid.KeyInit_Verify ki uris sigPubKey now = Err ErrInvalidTimes) ∧
       ((uid.NOTAFTER (uid.Contents ki) < uint64 now)%Z ->
        uid.KeyInit_Verify ki uris sigPubKey now = Err ErrExpired)).
Proof.
  intros Hclaim.
  destruct (Hclaim sample_ki_backwards [] sample_sigPubKey 150%Z) as [Htimes _].
  rewrite Verify_unlisted in Htimes by reflexivity.
  assert (Hbad : (uid.NOTBEFORE (uid.Contents sample_ki_backwards)
                  >= uid.NOTAFTER (uid.Contents sample_ki_backwards))%Z)
    by (vm_compute; discriminate).
  specialize (Htimes Hbad). discriminate.
Qed.

(** With the repository listed, a window turned around is reported as
    invalid and a window that ended before the current time as expired. *)
Lemma KeyInit_Verify_times_witness :
  uid.KeyInit_Verify sample_ki_backwards ["mute.berlin"] sample_sigPubKey 150
  = Err ErrInvalidTimes ∧
  uid.KeyInit_Verify sample_ki_old ["mute.berlin"] sample_sigPubKey 150
  = Err ErrExpired.
Proof.
  split.
  - apply (proj1 (proj2 (KeyInit_Verify_times
             sample_ki_backwards ["mute.berlin"] sample_sigPubKey 150))).
    + split; [vm_compute; reflexivity|].
      eexists _, _. repeat split; vm_compute; reflexivity.
    + vm_compute. discriminate.
  - apply (proj2 (proj2 (KeyInit_Verify_times
             sample_ki_old ["mute.berlin"] sample_sigPubKey 150))).
    + split; [vm_compute; reflexivity|].
      eexists _, _. repeat split; vm_compute; reflexivity.
    + vm_compute. reflexivity.
    + vm_compute. reflexivity.
Defined.

End keyinit_samples.

(** * Further properties *)

(** ** aes256: both directions, panics, CBC *)

Lemma xorb_shared (a b k : bool) : xorb (xorb a k) (xorb b k) = xorb a b.
Proof. by destruct a, b, k. Qed.

Lemma byte_xor_shared (a b k : byte) :
  byte_xor (byte_xor a k) (byte_xor b k) = byte_xor a b.
Proof.
  unfold byte_xor.
  destruct (Byte.to_bits a) as (a0 & a1 & a2 & a3 & a4 & a5 & a6 & a7).
  destruct (Byte.to_bits b) as (b0 & b1 & b2 & b3 & b4 & b5 & b6 & b7).
  destruct (Byte.to_bits k) as (k0 & k1 & k2 & k3 & k4 & k5 & k6 & k7).
  rewrite !Byte.to_bits_of_bits. by rewrite !xorb_shared.
Qed.

Lemma xor_block_cancel (a b : bytes) :
  length a = length b -> aes256.xor_block (aes256.xor_block a b) b = a.
Proof.
  unfold aes256.xor_block. revert b.
  induction a as [|x a IH]; intros [|y b] Hlen; try done.
  cbn. rewrite byte_xor_cancel. f_equal. apply IH. by injection Hlen.
Qed.

Lemma length_xor_block (a b : bytes) :
  length a = length b -> length (aes256.xor_block a b) = length a.
Proof.
  intros Hlen. unfold aes256.xor_block. rewrite length_zip_with. lia.
Qed.

Section ctr_more.
Context `{CTR}.

(** [CTRDecrypt] accepts every ciphertext of at least 16 bytes, and
    encrypting its result with the same IV gives the ciphertext back. *)
Theorem CTR_decrypt_encrypt (key ciphertext : bytes) :
  length key = 32 ->
  16 ≤ length ciphertext ->
  ∃ plaintext : bytes,
    aes256.CTRDecrypt key ciphertext = Ok plaintext ∧
    length plaintext = length ciphertext - 16 ∧
    ∀ rest : Reader,
      aes256.CTREncrypt key plaintext (take 16 ciphertext ++ rest)
      = Ok (ciphertext, rest).
Proof.
  intros Hk Hc.
  assert (Hiv : length (take 16 ciphertext) = 16) by (rewrite length_take; lia).
  exists (aes256.XORKeyStream (ctr_keystream key (take 16 ciphertext))
            (drop 16 ciphertext)).
  split; [|split].
  - rewrite <- CTRDecrypt_ok by done. by rewrite take_drop.
  - rewrite length_XORKeyStream, length_drop. done.
  - intros rest. rewrite CTREncrypt_ok by (rewrite ?length_app; lia).
    rewrite take_app_length', drop_app_length' by done.
    rewrite XORKeyStream_twice. by rewrite take_drop.
Qed.

(** [CTREncrypt] and [CTRDecrypt] never return an error: they return a
    value exactly when the key has 32 bytes and 16 bytes can be read for the
    IV (from the reader, from the ciphertext), and panic otherwise. *)
Theorem CTR_defined (key plaintext ciphertext : bytes) (rand : Reader) :
  ((∃ r, aes256.CTREncrypt key plaintext rand = Ok r)
   ↔ length key = 32 ∧ 16 ≤ length rand) ∧
  ((∃ p, aes256.CTRDecrypt key ciphertext = Ok p)
   ↔ length key = 32 ∧ 16 ≤ length ciphertext) ∧
  (∀ e, aes256.CTREncrypt key plaintext rand ≠ Err e) ∧
  (∀ e, aes256.CTRDecrypt key ciphertext ≠ Err e).
Proof.
  unfold aes256.CTREncrypt, aes256.CTRDecrypt, io_ReadFull, aes256.BlockSize.
  destruct (decide (length key ≠ 32)) as [Hk|Hk].
  { split; [|split; [|split]]; try done.
    - split; [by intros [? ?]|]. by intros [? ?].
    - split; [by intros [? ?]|]. by intros [? ?]. }
  apply dec_stable in Hk.
  split; [|split; [|split]].
  - destruct (decide (16 ≤ length rand)) as [Hr|Hr].
    + split; [done|]. intros _. by eexists.
    + split; [|lia]. intros [r Hr']. destruct (decide (rand = [])); done.
  - destruct (decide (length ciphertext < 16)) as [Hc|Hc].
    + split; [by intros [? ?]|lia].
    + split; [lia|]. intros _. by eexists.
  - intros e. destruct (decide (16 ≤ length rand)); [done|].
    by destruct (decide (rand = [])).
  - intros e. by destruct (decide (length ciphertext < 16)).
Qed.

(** Two plaintexts of the same length encrypted under the same key with the
    same IV: the exclusive or of the two ciphertext bodies is the exclusive
    or of the plaintexts. *)
Theorem CTR_iv_reuse (key p1 p2 : bytes) (rand1 rand2 : Reader) :
  length key = 32 ->
  16 ≤ length rand1 ->
  take 16 rand1 = take 16 rand2 ->
  length p1 = length p2 ->
  ∃ c1 c2 r1 r2,
    aes256.CTREncrypt key p1 rand1 = Ok (c1, r1) ∧
    aes256.CTREncrypt key p2 rand2 = Ok (c2, r2) ∧
    take 16 c1 = take 16 c2 ∧
    aes256.xor_block (drop 16 c1) (drop 16 c2) = aes256.xor_block p1 p2.
Proof.
  intros Hk Hr Hiv Hlen.
  assert (Hr2 : 16 ≤ length rand2).
  { apply (f_equal length) in Hiv. rewrite !length_take in Hiv. lia. }
  assert (H16 : length (take 16 rand1) = 16) by (rewrite length_take; lia).
  rewrite !CTREncrypt_ok by done. rewrite <- Hiv.
  eexists _, _, _, _. repeat split.
  - by rewrite !take_app_length'.
  - rewrite !drop_app_length' by done.
    generalize (ctr_keystream key (take 16 rand1)). clear -Hlen.
    unfold aes256.XORKeyStream, aes256.xor_block. revert p2 Hlen.
    induction p1 as [|x p1 IH]; intros [|y p2] Hlen stream; try done.
    cbn. rewrite byte_xor_shared. f_equal.
    apply IH. by injection Hlen.
Qed.

(** [CTRStream] returns a stream exactly when the key has 32 and the IV 16
    bytes; it is the stream under which [CTREncrypt] encrypts when it reads
    that IV, and under which [CTRDecrypt] decrypts. *)
Theorem CTRStream_stream (key iv : bytes) :
  ((∃ s, aes256.CTRStream key iv = Ok s) ↔ length key = 32 ∧ length iv = 16) ∧
  ∀ stream : nat -> byte,
    aes256.CTRStream key iv = Ok stream ->
    ∀ (plaintext : bytes) (rest : Reader),
      aes256.CTREncrypt key plaintext (iv ++ rest)
      = Ok (iv ++ aes256.XORKeyStream stream plaintext, rest) ∧
      aes256.CTRDecrypt key (iv ++ aes256.XORKeyStream stream plaintext)
      = Ok plaintext.
Proof.
  unfold aes256.CTRStream.
  destruct (decide (length key ≠ 32)) as [Hk|Hk];
    [|destruct (decide (length iv ≠ 16)) as [Hiv|Hiv]].
  - split; [|done]. split; [by intros [? ?]|]. intros [? ?]. done.
  - split; [|done]. split; [by intros [? ?]|]. intros [? ?]. done.
  - apply dec_stable in Hk. apply dec_stable in Hiv.
    split; [split; [done|by eexists]|].
    intros stream [= <-] plaintext rest. split.
    + rewrite CTREncrypt_ok by (rewrite ?length_app; lia).
      by rewrite take_app_length', drop_app_length'.
    + rewrite CTRDecrypt_ok by done. by rewrite XORKeyStream_twice.
Qed.

End ctr_more.

Section cbc.
Context `{BlockCipher, !BlockCipherLaws}.

Lemma cbc_encrypt_length (key iv : bytes) (n : nat) (src : bytes) :
  length key = 32 -> length iv = 16 -> length src = n * 16 ->
  length (aes256.cbc_encrypt key iv n src) = n * 16.
Proof.
  intros Hk. revert iv src. induction n as [|n IH]; intros iv src Hiv Hsrc; [done|].
  cbn [aes256.cbc_encrypt]. unfold aes256.BlockSize.
  assert (Hp : length (aes256.xor_block (take 16 src) iv) = 16).
  { rewrite length_xor_block; rewrite length_take; lia. }
  pose proof (aes_Encrypt_length key _ Hk Hp) as Hc.
  rewrite length_app, Hc, IH; [lia|done|]. rewrite length_drop. lia.
Qed.

Lemma cbc_decrypt_encrypt (key iv : bytes) (n : nat) (src : bytes) :
  length key = 32 -> length iv = 16 -> length src = n * 16 ->
  aes256.cbc_decrypt key iv n (aes256.cbc_encrypt key iv n src) = src.
Proof.
  intros Hk. revert iv src. induction n as [|n IH]; intros iv src Hiv Hsrc.
  - by destruct src.
  - cbn [aes256.cbc_encrypt aes256.cbc_decrypt]. unfold aes256.BlockSize.
    assert (Ht : length (take 16 src) = 16) by (rewrite length_take; lia).
    assert (Hp : length (aes256.xor_block (take 16 src) iv) = 16).
    { rewrite length_xor_block; lia. }
    pose proof (aes_Encrypt_length key _ Hk Hp) as Hc.
    rewrite take_app_length', drop_app_length' by done.
    rewrite aes_Decrypt_Encrypt by done.
    rewrite xor_block_cancel by lia.
    rewrite IH; [by rewrite take_drop|done|]. rewrite length_drop. lia.
Qed.

(** For a 32-byte key, a plaintext of whole blocks and a reader that
    delivers 16 bytes, [CBCEncrypt] returns the IV read followed by as many
    bytes as the plaintext has, and [CBCDecrypt] under the same key gives
    the plaintext back. *)
Theorem CBC_roundtrip (key plaintext : bytes) (rand : Reader) :
  length key = 32 ->
  length plaintext mod 16 = 0 ->
  16 ≤ length rand ->
  ∃ ciphertext : bytes,
    aes256.CBCEncrypt key plaintext rand = Ok (ciphertext, drop 16 rand) ∧
    length ciphertext = 16 + length plaintext ∧
    take 16 ciphertext = take 16 rand ∧
    aes256.CBCDecrypt key ciphertext = Ok plaintext.
Proof.
  intros Hk Hp Hr.
  assert (Hiv : length (take 16 rand) = 16) by (rewrite length_take; lia).
  assert (Hn : length plaintext = length plaintext / 16 * 16).
  { pose proof (Nat.div_mod_eq (length plaintext) 16). lia. }
  pose proof (cbc_encrypt_length key (take 16 rand) _ plaintext Hk Hiv Hn) as Hlen.
  eexists. split; [|split; [|split]].
  - unfold aes256.CBCEncrypt, io_ReadFull, aes256.BlockSize.
    rewrite decide_False by lia. rewrite decide_False by lia.
    rewrite decide_True by done. reflexivity.
  - rewrite length_app. lia.
  - by rewrite take_app_length'.
  - unfold aes256.CBCDecrypt, aes256.BlockSize.
    rewrite decide_False by lia.
    rewrite decide_False by (rewrite length_app; lia).
    rewrite take_app_length', drop_app_length' by done.
    rewrite Hlen, Nat.Div0.mod_mul, decide_False by lia.
    rewrite Nat.div_mul by lia. by rewrite cbc_decrypt_encrypt.
Qed.

End cbc.

Section cbc_defined.
Context `{BlockCipher}.

(** [CBCEncrypt] and [CBCDecrypt] never return an error: they return a
    value exactly when the key has 32 bytes, the text after the IV is made
    of whole 16-byte blocks and 16 bytes can be read for the IV, and panic
    otherwise. *)
Theorem CBC_defined (key plaintext ciphertext : bytes) (rand : Reader) :
  ((∃ r, aes256.CBCEncrypt key plaintext rand = Ok r)
   ↔ length key = 32 ∧ length plaintext mod 16 = 0 ∧ 16 ≤ length rand) ∧
  ((∃ p, aes256.CBCDecrypt key ciphertext = Ok p)
   ↔ length key = 32 ∧ 16 ≤ length ciphertext ∧ length ciphertext mod 16 = 0) ∧
  (∀ e, aes256.CBCEncrypt key plaintext rand ≠ Err e) ∧
  (∀ e, aes256.CBCDecrypt key ciphertext ≠ Err e).
Proof.
  unfold aes256.CBCEncrypt, aes256.CBCDecrypt, io_ReadFull, aes256.BlockSize.
  destruct (decide (length key ≠ 32)) as [Hk|Hk].
  { split; [|split; [|split]]; try done.
    - split; [by intros [? ?]|]. by intros [? ?].
    - split; [by intros [? ?]|]. by intros [? ?]. }
  apply dec_stable in Hk.
  assert (Hmod : 16 ≤ length ciphertext ->
                 length (drop 16 ciphertext) mod 16 = length ciphertext mod 16).
  { intros Hc. rewrite length_drop.
    replace (length ciphertext) with (length ciphertext - 16 + 1 * 16) at 2 by lia.
    by rewrite Nat.Div0.mod_add. }
  split; [|split; [|split]].
  - destruct (decide (length plaintext mod 16 ≠ 0)) as [Hp|Hp].
    { split; [by intros [? ?]|]. intros (_ & ? & _). done. }
    apply dec_stable in Hp.
    destruct (decide (16 ≤ length rand)) as [Hr|Hr].
    + split; [done|]. intros _. by eexists.
    + split; [|lia]. intros [r Hr']. destruct (decide (rand = [])); done.
  - destruct (decide (length ciphertext < 16)) as [Hc|Hc].
    { split; [by intros [? ?]|lia]. }
    destruct (decide (length (drop 16 ciphertext) mod 16 ≠ 0)) as [Hb|Hb].
    + split; [by intros [? ?]|]. intros (_ & ? & Hm). rewrite Hmod in Hb by lia. done.
    + apply dec_stable in Hb. rewrite Hmod in Hb by lia.
      split; [intros _; repeat split; lia|]. intros _. by eexists.
  - intros e. destruct (decide (length plaintext mod 16 ≠ 0)); [done|].
    destruct (decide (16 ≤ length rand)); [done|].
    by destruct (decide (rand = [])).
  - intros e. destruct (decide (length ciphertext < 16)); [done|].
    by destruct (decide (length (drop 16 ciphertext) mod 16 ≠ 0)).
Qed.

End cbc_defined.

Section aes_samples.
Import ref_inst.
#[local] Existing Instance ctr_repeat.
#[local] Existing Instance block_mask.

Lemma block_mask_laws : BlockCipherLaws.
Proof.
  split; intros key b _ Hb.
  - change (map (fun x => byte_xor x (hd x00 key))
              (map (fun x => byte_xor x (hd x00 key)) b) = b).
    rewrite map_map. rewrite <- (map_id b) at 2.
    apply map_ext. intros x. apply byte_xor_cancel.
  - change (length (map (fun x => byte_xor x (hd x00 key)) b) = 16).
    by rewrite length_map.
Qed.

#[local] Existing Instance block_mask_laws.

Lemma CTR_decrypt_encrypt_witness :
  ∃ plaintext : bytes,
    aes256.CTRDecrypt (replicate 32 x2a) (replicate 16 x07 ++ [x4b; x48; x49])
    = Ok plaintext ∧
    length plaintext = 19 - 16 ∧
    ∀ rest : Reader,
      aes256.CTREncrypt (replicate 32 x2a) plaintext
        (take 16 (replicate 16 x07 ++ [x4b; x48; x49]) ++ rest)
      = Ok (replicate 16 x07 ++ [x4b; x48; x49], rest).
Proof.
  apply (CTR_decrypt_encrypt (replicate 32 x2a)
           (replicate 16 x07 ++ [x4b; x48; x49])).
  - reflexivity.
  - vm_compute. lia.
Defined.

Lemma CTR_iv_reuse_witness :
  ∃ c1 c2 r1 r2,
    aes256.CTREncrypt (replicate 32 x2a) [x61; x62] (replicate 16 x07) = Ok (c1, r1) ∧
    aes256.CTREncrypt (replicate 32 x2a) [x63; x64] (replicate 17 x07) = Ok (c2, r2) ∧
    take 16 c1 = take 16 c2 ∧
    aes256.xor_block (drop 16 c1) (drop 16 c2)
    = aes256.xor_block [x61; x62] [x63; x64].
Proof.
  apply (CTR_iv_reuse (replicate 32 x2a) [x61; x62] [x63; x64]
           (replicate 16 x07) (replicate 17 x07)).
  - reflexivity.
  - vm_compute. lia.
  - reflexivity.
  - reflexivity.
Defined.

Lemma CBC_roundtrip_witness :
  ∃ ciphertext : bytes,
    aes256.CBCEncrypt (replicate 32 x2a) (replicate 32 x61) (replicate 20 x07)
    = Ok (ciphertext, drop 16 (replicate 20 x07)) ∧
    length ciphertext = 16 + 32 ∧
    take 16 ciphertext = take 16 (replicate 20 x07) ∧
    aes256.CBCDecrypt (replicate 32 x2a) ciphertext = Ok (replicate 32 x61).
Proof.
  apply (CBC_roundtrip (replicate 32 x2a) (replicate 32 x61) (replicate 20 x07)).
  - reflexivity.
  - reflexivity.
  - vm_compute. lia.
Defined.

Example CBCEncrypt_sample :
  aes256.CBCEncrypt (replicate 32 x2a) (replicate 32 x61) (replicate 20 x07)
  = Ok (replicate 16 x07 ++ replicate 16 x4c ++ replicate 16 x07, replicate 4 x07).
Proof. vm_compute. reflexivity. Qed.

End aes_samples.

(** ** util *)

(** [ContainsString] is true exactly for the strings that occur in the
    list. *)
Theorem ContainsString_elem_of (sa : list string) (s : string) :
  util.ContainsString sa s = true ↔ s ∈ sa.
Proof.
  induction sa as [|v sa IH]; cbn.
  - split; [done|]. by intros ?%elem_of_nil.
  - destruct (decide (v = s)) as [->|Hne].
    + split; [intros _; by left|done].
    + rewrite IH. split; [by right|].
      intros [?|?]%elem_of_cons; [congruence|done].
Qed.

Lemma ContainsString_in (sa : list string) (s : string) :
  s ∈ sa -> util.ContainsString sa s = true.
Proof.
  induction sa as [|v sa IH]; cbn; [by intros ?%elem_of_nil|].
  intros [->|Hin]%elem_of_cons; [by rewrite decide_True|].
  destruct (decide (v = s)); [done|by apply IH].
Qed.

(** ** session: equality of states *)

Lemma bool_eqb_sym (a b : bool) : eqb a b = eqb b a.
Proof. by destruct a, b. Qed.

Section state_equal_more.
Context `{KeyEntryT}.

(** For two different non-nil pointers [StateEqual] returns true exactly
    when the three counters, the nym address and the key-init flag agree
    and [KeyEntryEqual] returns true on each of the four pairs of key
    entries. *)
Theorem StateEqual_true_iff (mem : addr -> session.State) (pa pb : addr) :
  pa ≠ pb ->
  session.StateEqual mem (Some pa) (Some pb) = Ok true
  ↔ session.SenderSessionCount (mem pa) = session.SenderSessionCount (mem pb) ∧
    session.SenderMessageCount (mem pa) = session.SenderMessageCount (mem pb) ∧
    session.MaxRecipientCount (mem pa) = session.MaxRecipientCount (mem pb) ∧
    KeyEntryEqual (Some (session.RecipientTemp (mem pa)))
                  (Some (session.RecipientTemp (mem pb))) = Ok true ∧
    KeyEntryEqual (Some (session.SenderSessionPub (mem pa)))
                  (Some (session.SenderSessionPub (mem pb))) = Ok true ∧
    KeyEntryEqual (session.NextSenderSessionPub (mem pa))
                  (session.NextSenderSessionPub (mem pb)) = Ok true ∧
    KeyEntryEqual (session.NextRecipientSessionPubSeen (mem pa))
                  (session.NextRecipientSessionPubSeen (mem pb)) = Ok true ∧
    session.NymAddress (mem pa) = session.NymAddress (mem pb) ∧
    session.KeyInitSession (mem pa) = session.KeyInitSession (mem pb).
Proof.
  intros Hne. unfold session.StateEqual.
  rewrite decide_False by congruence. cbn zeta.
  destruct (decide (session.SenderSessionCount (mem pa)
                    ≠ session.SenderSessionCount (mem pb))) as [H1|H1];
    [split; [done|tauto]|apply dec_stable in H1].
  destruct (decide (session.SenderMessageCount (mem pa)
                    ≠ session.SenderMessageCount (mem pb))) as [H2|H2];
    [split; [done|tauto]|apply dec_stable in H2].
  destruct (decide (session.MaxRecipientCount (mem pa)
                    ≠ session.MaxRecipientCount (mem pb))) as [H3|H3];
    [split; [done|tauto]|apply dec_stable in H3].
  destruct (KeyEntryEqual (Some (session.RecipientTemp (mem pa))) _)
    as [[|]| |]; cbn [mbind res_bind negb];
    try (split; [done|intros (_ & _ & _ & ? & _); done]).
  destruct (KeyEntryEqual (Some (session.SenderSessionPub (mem pa))) _)
    as [[|]| |]; cbn [mbind res_bind negb];
    try (split; [done|intros (_ & _ & _ & _ & ? & _); done]).
  destruct (KeyEntryEqual (session.NextSenderSessionPub (mem pa)) _)
    as [[|]| |]; cbn [mbind res_bind negb];
    try (split; [done|intros (_ & _ & _ & _ & _ & ? & _); done]).
  destruct (KeyEntryEqual (session.NextRecipientSessionPubSeen (mem pa)) _)
    as [[|]| |]; cbn [mbind res_bind negb];
    try (split; [done|intros (_ & _ & _ & _ & _ & _ & ? & _); done]).
  destruct (decide (session.NymAddress (mem pa) ≠ session.NymAddress (mem pb)))
    as [H4|H4]; [split; [done|tauto]|apply dec_stable in H4].
  destruct (session.KeyInitSession (mem pa)), (session.KeyInitSession (mem pb));
    cbn; intuition congruence.
Qed.

(** When [KeyEntryEqual] does not depend on the order of its arguments,
    neither does [StateEqual], panics included. *)
Theorem StateEqual_sym (mem : addr -> session.State) (a b : pointer) :
  (∀ x y, KeyEntryEqual x y = KeyEntryEqual y x) ->
  session.StateEqual mem a b = session.StateEqual mem b a.
Proof.
  intros Hsym. unfold session.StateEqual.
  destruct (decide (a = b)) as [->|Hne]; [by rewrite decide_True|].
  rewrite (decide_False (P := b = a)) by congruence.
  destruct a as [pa|], b as [pb|]; try done. cbn zeta.
  rewrite (Hsym (Some (session.RecipientTemp (mem pb)))).
  rewrite (Hsym (Some (session.SenderSessionPub (mem pb)))).
  rewrite (Hsym (session.NextSenderSessionPub (mem pb))).
  rewrite (Hsym (session.NextRecipientSessionPubSeen (mem pb))).
  rewrite (bool_eqb_sym (session.KeyInitSession (mem pb))).
  repeat match goal with
  | |- context [decide (?x ≠ ?y)] =>
      lazymatch goal with
      | |- context [decide (y ≠ x)] =>
          destruct (decide (x ≠ y)), (decide (y ≠ x)); try congruence; try done
      end
  end.
Qed.

End state_equal_more.

Section state_more_samples.
Import ref_inst.
#[local] Existing Instance key_entry_triple.

Lemma StateEqual_true_iff_witness :
  session.StateEqual sample_mem (Some 0) (Some 1) = Ok true
  ↔ session.SenderSessionCount (sample_mem 0)
    = session.SenderSessionCount (sample_mem 1) ∧
    session.SenderMessageCount (sample_mem 0)
    = session.SenderMessageCount (sample_mem 1) ∧
    session.MaxRecipientCount (sample_mem 0)
    = session.MaxRecipientCount (sample_mem 1) ∧
    KeyEntryEqual (Some (session.RecipientTemp (sample_mem 0)))
                  (Some (session.RecipientTemp (sample_mem 1))) = Ok true ∧
    KeyEntryEqual (Some (session.SenderSessionPub (sample_mem 0)))
                  (Some (session.SenderSessionPub (sample_mem 1))) = Ok true ∧
    KeyEntryEqual (session.NextSenderSessionPub (sample_mem 0))
                  (session.NextSenderSessionPub (sample_mem 1)) = Ok true ∧
    KeyEntryEqual (session.NextRecipientSessionPubSeen (sample_mem 0))
                  (session.NextRecipientSessionPubSeen (sample_mem 1)) = Ok true ∧
    session.NymAddress (sample_mem 0) = session.NymAddress (sample_mem 1) ∧
    session.KeyInitSession (sample_mem 0) = session.KeyInitSession (sample_mem 1).
Proof.
  apply (StateEqual_true_iff sample_mem 0 1). lia.
Defined.

Lemma key_entry_triple_sym (x y : option KeyEntry) :
  KeyEntryEqual x y = KeyEntryEqual y x.
Proof.
  destruct x as [x|], y as [y|]; try done.
  change (Ok (bool_decide (x.1 = y.1)) = Ok (bool_decide (y.1 = x.1))).
  f_equal. apply bool_decide_ext. split; congruence.
Qed.

Lemma StateEqual_sym_witness :
  session.StateEqual sample_mem (Some 0) (Some 2)
  = session.StateEqual sample_mem (Some 2) (Some 0).
Proof.
  apply (StateEqual_sym sample_mem (Some 0) (Some 2)).
  exact key_entry_triple_sym.
Defined.

End state_more_samples.

(** ** memstore: the other methods *)

Section slices_more.
Import memstore.

Lemma slice_set_inv (h h' : heap) (s : slice) (i : nat) (v : string) :
  slice_set h s i v = Ok h' ->
  ∃ a, i < s_len s ∧ h !! s_arr s = Some a ∧ s_off s + i < length a ∧
       h' = <[s_arr s := <[s_off s + i := v]> a]> h.
Proof.
  unfold slice_set. destruct (decide (i < s_len s)); [|done].
  destruct (h !! s_arr s) as [a|]; [|done].
  destruct (decide (s_off s + i < length a)); [|done].
  intros [= <-]. by exists a.
Qed.

Lemma slice_get_after_set (h h' : heap) (s : slice) (i : nat) (v : string) :
  slice_set h s i v = Ok h' -> slice_get h' s i = Ok v.
Proof.
  intros (a & Hi & Ha & Hlen & ->)%slice_set_inv. unfold slice_get.
  rewrite decide_True by done. rewrite lookup_insert_eq. cbn.
  by rewrite list_lookup_insert_eq.
Qed.

(** A write leaves every other cell as it was. *)
Lemma slice_get_other (h h' : heap) (s s2 : slice) (i j : nat) (v : string) :
  slice_set h s i v = Ok h' ->
  s_arr s ≠ s_arr s2 ∨ s_off s + i ≠ s_off s2 + j ->
  slice_get h' s2 j = slice_get h s2 j.
Proof.
  intros (a & Hi & Ha & Hlen & ->)%slice_set_inv Hcell. unfold slice_get.
  destruct (decide (j < s_len s2)); [|done].
  destruct (decide (s_arr s = s_arr s2)) as [Heq|Hne].
  - rewrite <- Heq, lookup_insert_eq, Ha. cbn.
    rewrite list_lookup_insert_ne; [done|].
    destruct Hcell as [Harr|Hoff]; [done|exact Hoff].
  - by rewrite lookup_insert_ne.
Qed.

Lemma slice_set_twice (h h' : heap) (s : slice) (i : nat) (v : string) :
  slice_set h s i v = Ok h' -> slice_set h' s i v = Ok h'.
Proof.
  intros (a & Hi & Ha & Hlen & ->)%slice_set_inv. unfold slice_set.
  rewrite decide_True by done. rewrite lookup_insert_eq.
  rewrite decide_True by (by rewrite length_insert).
  by rewrite insert_insert_eq, list_insert_insert_eq.
Qed.

End slices_more.

Section store_more.
Context `{KeyEntryT}.
Import memstore.

Lemma DelMessageKey_Ok_inv (h h' : heap) (ms : MemStore)
  (myID contactID pubHash : string) (sender : bool) (i : nat) :
  DelMessageKey h ms myID contactID pubHash sender i = (h', Ok tt) ->
  ∃ s, sessions ms !! (myID +:+ "@" +:+ contactID +:+ "@" +:+ pubHash) = Some s ∧
       i < s_len (send s) ∧
       slice_set h (if sender then send s else recv s) i "" = Ok h'.
Proof.
  unfold DelMessageKey. cbn zeta.
  destruct (sessions ms !! _) as [s|]; [|done].
  destruct (decide (s_len (send s) ≤ i)); [done|].
  destruct (slice_set h _ i "") as [h1| |] eqn:Hset; [|done..].
  intros [= <-]. exists s. repeat split; [lia|done].
Qed.

(** What [GetMessageKey] does once the session is found and the index is
    in range. *)
Lemma GetMessageKey_in_range `{Base64} (h : heap) (ms : MemStore)
  (myID contactID pubHash : string) (sender : bool) (i : nat) (s : memSession) :
  sessions ms !! (myID +:+ "@" +:+ contactID +:+ "@" +:+ pubHash) = Some s ->
  i < s_len (send s) ->
  slice_get h (if sender then send s else recv s) i = Ok "" ->
  GetMessageKey h ms myID contactID pubHash sender i = Err ErrMessageKeyUsed.
Proof.
  intros Hs Hi Hget. unfold GetMessageKey. cbn zeta. rewrite Hs.
  rewrite decide_False by lia.
  destruct sender; rewrite Hget; cbn; by rewrite decide_True.
Qed.

Lemma GetMessageKey_same_cell `{Base64} (h h' : heap) (ms : MemStore)
  (myID contactID pubHash : string) (sender : bool) (j : nat) :
  (∀ s, sessions ms !! (myID +:+ "@" +:+ contactID +:+ "@" +:+ pubHash) = Some s ->
        slice_get h' (if sender then send s else recv s) j
        = slice_get h (if sender then send s else recv s) j) ->
  GetMessageKey h' ms myID contactID pubHash sender j
  = GetMessageKey h ms myID contactID pubHash sender j.
Proof.
  intros Hcell. unfold GetMessageKey. cbn zeta.
  destruct (sessions ms !! _) as [s|]; [|done].
  specialize (Hcell s eq_refl).
  destruct (decide (s_len (send s) ≤ j)); [done|].
  destruct sender; by rewrite Hcell.
Qed.

Section message_keys_more.
Context `{Base64}.

(** A deleted key is reported as used whether or not it was retrieved
    before, and deleting it once more succeeds and changes nothing. *)
Theorem DelMessageKey_used (h h' : heap) (ms : MemStore)
  (myID contactID pubHash : string) (sender : bool) (i : nat) :
  DelMessageKey h ms myID contactID pubHash sender i = (h', Ok tt) ->
  GetMessageKey h' ms myID contactID pubHash sender i = Err ErrMessageKeyUsed ∧
  DelMessageKey h' ms myID contactID pubHash sender i = (h', Ok tt).
Proof.
  intros (s & Hs & Hi & Hset)%DelMessageKey_Ok_inv. split.
  - eapply GetMessageKey_in_range; [done..|]. by eapply slice_get_after_set.
  - unfold DelMessageKey. cbn zeta. rewrite Hs.
    rewrite decide_False by lia. by rewrite (slice_set_twice _ _ _ _ _ Hset).
Qed.

(** Deleting a key leaves the other keys of the same chain as they were,
    and also the keys of the other chain when the two chains have backing
    arrays of their own. *)
Theorem DelMessageKey_other_keys (h h' : heap) (ms : MemStore)
  (myID contactID pubHash : string) (sender : bool) (i : nat) :
  DelMessageKey h ms myID contactID pubHash sender i = (h', Ok tt) ->
  (∀ j, j ≠ i ->
     GetMessageKey h' ms myID contactID pubHash sender j
     = GetMessageKey h ms myID contactID pubHash sender j) ∧
  ((∀ s, sessions ms !! (myID +:+ "@" +:+ contactID +:+ "@" +:+ pubHash) = Some s ->
         s_arr (send s) ≠ s_arr (recv s)) ->
   ∀ j, GetMessageKey h' ms myID contactID pubHash (negb sender) j
        = GetMessageKey h ms myID contactID pubHash (negb sender) j).
Proof.
  intros (s & Hs & Hi & Hset)%DelMessageKey_Ok_inv. split.
  - intros j Hj. apply GetMessageKey_same_cell. intros s' Hs'.
    assert (s' = s) as -> by congruence.
    eapply slice_get_other; [done|]. right. lia.
  - intros Harr j. apply GetMessageKey_same_cell. intros s' Hs'.
    assert (s' = s) as -> by congruence. specialize (Harr s Hs).
    eapply slice_get_other; [done|]. left. destruct sender; cbn; congruence.
Qed.

(** The chains are stored as they are given, not copied: when a session was
    stored with one slice for both chains, deleting the key of one party
    uses up the key of the other party at that index. *)
Theorem DelMessageKey_aliased (h h' : heap) (ms : MemStore)
  (myID contactID pubHash : string) (sender : bool) (i : nat) (s : memSession) :
  sessions ms !! (myID +:+ "@" +:+ contactID +:+ "@" +:+ pubHash) = Some s ->
  send s = recv s ->
  DelMessageKey h ms myID contactID pubHash sender i = (h', Ok tt) ->
  GetMessageKey h' ms myID contactID pubHash (negb sender) i
  = Err ErrMessageKeyUsed.
Proof.
  intros Hs Halias (s' & Hs' & Hi & Hset)%DelMessageKey_Ok_inv.
  assert (s' = s) as -> by congruence.
  eapply GetMessageKey_in_range; [done..|].
  apply slice_get_after_set in Hset.
  destruct sender; cbn in *; [rewrite <- Halias|rewrite Halias]; done.
Qed.

(** A key or root key hash that is returned has exactly 64 bytes. *)
Theorem GetMessageKey_length (h : heap) (ms : MemStore)
  (myID contactID pubHash : string) (sender : bool) (i : nat) :
  (∀ key, GetMessageKey h ms myID contactID pubHash sender i = Ok key ->
          length key = 64) ∧
  (∀ hash, GetRootKeyHash ms myID contactID pubHash = Ok hash ->
           length hash = 64).
Proof.
  split.
  - intros key. unfold GetMessageKey. cbn zeta.
    destruct (sessions ms !! _) as [s|]; [|done].
    destruct (decide (s_len (send s) ≤ i)); [done|].
    destruct sender;
      (destruct (slice_get h _ i) as [k| |]; cbn [mbind res_bind]; try done;
       destruct (decide (k = "")); [done|];
       destruct (base64_Decode k) as [b| |]; try done;
       destruct (decide (Nat.min 64 (length b) ≠ 64)) as [|Hm]; [done|];
       intros [= <-]; rewrite length_take; lia).
  - intros hash. unfold GetRootKeyHash. cbn zeta.
    destruct (sessions ms !! _) as [s|]; [|done].
    destruct (base64_Decode (rootKeyHash s)) as [b| |]; try done.
    destruct (decide (Nat.min 64 (length b) ≠ 64)) as [|Hm]; [done|].
    intros [= <-]. rewrite length_take. lia.
Qed.

(** Without a session under the three names, [NumMessageKeys],
    [GetMessageKey], [GetRootKeyHash] and [DelMessageKey] all return the
    same error, which names the two identities, and the keys stay as they
    are. *)
Theorem no_session_found (h : heap) (ms : MemStore)
  (myID contactID pubHash : string) (sender : bool) (i : nat) :
  HasSession ms myID contactID pubHash = false ->
  NumMessageKeys ms myID contactID pubHash
  = Err (errors_New ("memstore: no session found for " +:+ myID +:+
                     " and " +:+ contactID)) ∧
  GetMessageKey h ms myID contactID pubHash sender i
  = Err (errors_New ("memstore: no session found for " +:+ myID +:+
                     " and " +:+ contactID)) ∧
  GetRootKeyHash ms myID contactID pubHash
  = Err (errors_New ("memstore: no session found for " +:+ myID +:+
                     " and " +:+ contactID)) ∧
  DelMessageKey h ms myID contactID pubHash sender i
  = (h, Err (errors_New ("memstore: no session found for " +:+ myID +:+
                         " and " +:+ contactID))).
Proof.
  unfold HasSession, NumMessageKeys, GetMessageKey, GetRootKeyHash, DelMessageKey.
  cbn zeta. intros Hno%bool_decide_eq_false.
  destruct (sessions ms !! _) as [s|]; [|done].
  exfalso. apply Hno. by eexists.
Qed.

End message_keys_more.

End store_more.

Section store_calls.
Context `{KeyEntryT, Identity}.
Import memstore.

Lemma exec_last_set (ms ms' : MemStore) (c : call) (k : string) :
  exec ms c = Ok ms' ->
  map_index (sessionStates ms') k = last_set k (map_index (sessionStates ms) k) [c].
Proof.
  unfold map_index, last_set.
  destruct c as [ke|identity ke|myID contactID st|
                 myID contactID pubHash rootKeyHash chainKey snd rcv]; cbn.
  - destruct ke; [|done]. by intros [= <-].
  - by intros [= <-].
  - destruct st as [a|]; [|done]. intros [= <-]. cbn.
    destruct (decide (myID +:+ "@" +:+ contactID = k)) as [->|Hne].
    + by rewrite lookup_insert_eq.
    + by rewrite lookup_insert_ne.
  - intros [= <-]. unfold StoreSession. by repeat (case_match; cbn).
Qed.

Lemma run_last_set (cs : list call) (ms ms' : MemStore) (k : string) :
  run ms cs = Ok ms' ->
  map_index (sessionStates ms') k = last_set k (map_index (sessionStates ms) k) cs.
Proof.
  revert ms. induction cs as [|c cs IH]; intros ms; cbn.
  - by intros [= <-].
  - destruct (exec ms c) as [ms1| |] eqn:Hexec; cbn; [|done..].
    intros Hrun. rewrite (IH ms1 Hrun), (exec_last_set _ _ _ _ Hexec). done.
Qed.

(** On a store built from [New] by calls of its methods, [GetSessionState]
    returns the state of the last [SetSessionState] under the same map key,
    nil if there was none, and a nil error. *)
Theorem GetSessionState_last_set (cs : list call) (ms : MemStore)
  (myID contactID : string) :
  run New cs = Ok ms ->
  GetSessionState ms myID contactID
  = (last_set (myID +:+ "@" +:+ contactID) None cs, None).
Proof.
  intros Hrun. unfold GetSessionState.
  by rewrite (run_last_set _ _ _ _ Hrun).
Qed.

(** [SetSessionState] panics on a nil state and otherwise stores the state
    under the key of the pair: it is what [GetSessionState] then returns for
    the pair, the states under other keys and the sessions stay. *)
Theorem SetSessionState_GetSessionState (ms : MemStore) (myID contactID : string)
  (a : addr) :
  SetSessionState ms myID contactID None
  = Panic "invalid memory address or nil pointer dereference" ∧
  ∃ ms' : MemStore,
    SetSessionState ms myID contactID (Some a) = Ok ms' ∧
    GetSessionState ms' myID contactID = (Some a, None) ∧
    (∀ myID' contactID',
       myID' +:+ "@" +:+ contactID' ≠ myID +:+ "@" +:+ contactID ->
       GetSessionState ms' myID' contactID' = GetSessionState ms myID' contactID') ∧
    sessions ms' = sessions ms.
Proof.
  split; [done|]. eexists. split; [done|].
  unfold GetSessionState, map_index. cbn. repeat split.
  - by rewrite lookup_insert_eq.
  - intros myID' contactID' Hne. by rewrite lookup_insert_ne.
Qed.

Lemma exec_HasSession (ms ms' : MemStore) (c : call)
  (myID contactID pubHash : string) :
  exec ms c = Ok ms' ->
  HasSession ms myID contactID pubHash = true ->
  HasSession ms' myID contactID pubHash = true.
Proof.
  unfold HasSession. rewrite !bool_decide_eq_true.
  destruct c as [ke|identity ke|my c st|my c hash rootKeyHash chainKey snd rcv]; cbn.
  - destruct ke; [|done]. by intros [= <-].
  - by intros [= <-].
  - destruct st; [|done]. by intros [= <-].
  - intros [= <-]. unfold StoreSession.
    repeat (case_match; cbn); try done.
    intros Hs. destruct (decide (my +:+ "@" +:+ c +:+ "@" +:+ hash
                                 = myID +:+ "@" +:+ contactID +:+ "@" +:+ pubHash))
      as [->|Hne].
    + rewrite lookup_insert_eq. by eexists.
    + by rewrite lookup_insert_ne.
Qed.

(** A session is never removed: once [HasSession] is true it stays true
    under every further sequence of calls. *)
Theorem HasSession_stable (cs : list call) (ms ms' : MemStore)
  (myID contactID pubHash : string) :
  HasSession ms myID contactID pubHash = true ->
  run ms cs = Ok ms' ->
  HasSession ms' myID contactID pubHash = true.
Proof.
  revert ms. induction cs as [|c cs IH]; intros ms Hhas; cbn.
  - by intros [= <-].
  - destruct (exec ms c) as [ms1| |] eqn:Hexec; cbn; [|done..].
    apply IH. by eapply exec_HasSession.
Qed.

(** [StoreSession] returns no error exactly when both identities are mapped
    and the chains have the same length.  Then the session exists, has as
    many message keys as the send chain, the hash is the most recent one,
    and the session states and the other sessions stay; with an error the
    store stays as it was. *)
Theorem StoreSession_outcome (ms : MemStore)
  (myID contactID pubHash rootKeyHash chainKey : string) (snd rcv : slice) :
  ((StoreSession ms myID contactID pubHash rootKeyHash chainKey snd rcv).2 = None
   ↔ identity_IsMapped myID = None ∧ identity_IsMapped contactID = None ∧
     s_len snd = s_len rcv) ∧
  ((StoreSession ms myID contactID pubHash rootKeyHash chainKey snd rcv).2 = None ->
   HasSession
     (StoreSession ms myID contactID pubHash rootKeyHash chainKey snd rcv).1
     myID contactID pubHash = true ∧
   NumMessageKeys
     (StoreSession ms myID contactID pubHash rootKeyHash chainKey snd rcv).1
     myID contactID pubHash = Ok (s_len snd) ∧
   SenderSessionPubHash
     (StoreSession ms myID contactID pubHash rootKeyHash chainKey snd rcv).1
   = pubHash ∧
   sessionStates
     (StoreSession ms myID contactID pubHash rootKeyHash chainKey snd rcv).1
   = sessionStates ms ∧
   ∀ k, k ≠ myID +:+ "@" +:+ contactID +:+ "@" +:+ pubHash ->
        sessions
          (StoreSession ms myID contactID pubHash rootKeyHash chainKey snd rcv).1
          !! k = sessions ms !! k) ∧
  ((StoreSession ms myID contactID pubHash rootKeyHash chainKey snd rcv).2 ≠ None ->
   (StoreSession ms myID contactID pubHash rootKeyHash chainKey snd rcv).1 = ms).
Proof.
  unfold StoreSession.
  destruct (identity_IsMapped myID) as [e1|];
    [cbn; intuition congruence|].
  destruct (identity_IsMapped contactID) as [e2|];
    [cbn; intuition congruence|].
  destruct (decide (s_len snd ≠ s_len rcv)) as [Hlen|Hlen];
    [cbn; intuition congruence|].
  apply dec_stable in Hlen. cbn. split; [done|]. split; [|done]. intros _.
  unfold HasSession, NumMessageKeys, SenderSessionPubHash. cbn.
  rewrite lookup_insert_eq. repeat split;
    try (apply bool_decide_eq_true; by eexists).
  intros k Hk. by rewrite lookup_insert_ne.
Qed.

(** Key entries are found under the key they were added with: a private
    entry under its hash, a public entry (also a nil one) under the
    identity, with the nym address "undefined"; a key that was never added
    gives an error; adding a nil private entry panics. *)
Theorem key_entries_roundtrip (ms : MemStore) (ke : KeyEntry)
  (pub : option KeyEntry) (identity key : string) :
  (∃ ms', AddPrivateKeyEntry ms (Some ke) = Ok ms' ∧
          GetPrivateKeyEntry ms' (ke_HASH ke) = Ok (Some ke) ∧
          (key ≠ ke_HASH ke ->
           GetPrivateKeyEntry ms' key = GetPrivateKeyEntry ms key)) ∧
  AddPrivateKeyEntry ms None
  = Panic "invalid memory address or nil pointer dereference" ∧
  GetPublicKeyEntry (AddPublicKeyEntry ms identity pub) identity
  = Ok (pub, "undefined") ∧
  (key ≠ identity ->
   GetPublicKeyEntry (AddPublicKeyEntry ms identity pub) key
   = GetPublicKeyEntry ms key) ∧
  GetPrivateKeyEntry New key
  = Err (errors_New ("memstore: could not find key entry " +:+ key)) ∧
  GetPublicKeyEntry New key = Err ErrNoKeyInit.
Proof.
  unfold GetPrivateKeyEntry, GetPublicKeyEntry. cbn. repeat split.
  - eexists. split; [done|]. cbn. rewrite lookup_insert_eq. split; [done|].
    intros Hne. by rewrite lookup_insert_ne.
  - by rewrite lookup_insert_eq.
  - intros Hne. by rewrite lookup_insert_ne.
Qed.

End store_calls.

Section store_more_samples.
Import ref_inst.
#[local] Existing Instance base64_id.
#[local] Existing Instance key_entry_triple.
#[local] Existing Instance identity_lower.

Lemma DelMessageKey_used_witness :
  ∃ h' : memstore.heap,
    memstore.DelMessageKey sample_heap sample_store
      "alice@mute.berlin" "bob@mute.berlin" "hash" false 0 = (h', Ok tt) ∧
    memstore.GetMessageKey h' sample_store
      "alice@mute.berlin" "bob@mute.berlin" "hash" false 0
    = Err ErrMessageKeyUsed ∧
    memstore.DelMessageKey h' sample_store
      "alice@mute.berlin" "bob@mute.berlin" "hash" false 0 = (h', Ok tt).
Proof.
  exists (memstore.DelMessageKey sample_heap sample_store
            "alice@mute.berlin" "bob@mute.berlin" "hash" false 0).1.
  split; [vm_compute; reflexivity|].
  apply (DelMessageKey_used sample_heap _ sample_store
           "alice@mute.berlin" "bob@mute.berlin" "hash" false 0).
  vm_compute. reflexivity.
Defined.

Lemma DelMessageKey_other_keys_witness :
  ∃ h' : memstore.heap,
    memstore.DelMessageKey sample_heap sample_store
      "alice@mute.berlin" "bob@mute.berlin" "hash" true 0 = (h', Ok tt) ∧
    memstore.GetMessageKey h' sample_store
      "alice@mute.berlin" "bob@mute.berlin" "hash" true 1
    = Ok (replicate 64 x42) ∧
    memstore.GetMessageKey h' sample_store
      "alice@mute.berlin" "bob@mute.berlin" "hash" false 0
    = Ok (replicate 64 x43).
Proof.
  exists (memstore.DelMessageKey sample_heap sample_store
            "alice@mute.berlin" "bob@mute.berlin" "hash" true 0).1.
  split; [vm_compute; reflexivity|].
  destruct (DelMessageKey_other_keys sample_heap
              (memstore.DelMessageKey sample_heap sample_store
                 "alice@mute.berlin" "bob@mute.berlin" "hash" true 0).1
              sample_store "alice@mute.berlin" "bob@mute.berlin" "hash" true 0)
    as [Hsame Hother]; [vm_compute; reflexivity|].
  split.
  - rewrite (Hsame 1) by lia. vm_compute. reflexivity.
  - change false with (negb true). rewrite Hother.
    + vm_compute. reflexivity.
    + intros s Hs. vm_compute in Hs. injection Hs as <-. vm_compute. lia.
Defined.

Lemma DelMessageKey_aliased_witness :
  ∃ h' : memstore.heap,
    memstore.DelMessageKey sample_heap sample_store_aliased
      "alice@mute.berlin" "bob@mute.berlin" "hash" true 0 = (h', Ok tt) ∧
    memstore.GetMessageKey sample_heap sample_store_aliased
      "alice@mute.berlin" "bob@mute.berlin" "hash" false 0
    = Ok (replicate 64 x41) ∧
    memstore.GetMessageKey h' sample_store_aliased
      "alice@mute.berlin" "bob@mute.berlin" "hash" false 0
    = Err ErrMessageKeyUsed.
Proof.
  exists (memstore.DelMessageKey sample_heap sample_store_aliased
            "alice@mute.berlin" "bob@mute.berlin" "hash" true 0).1.
  split; [vm_compute; reflexivity|]. split; [vm_compute; reflexivity|].
  apply (DelMessageKey_aliased sample_heap _ sample_store_aliased
           "alice@mute.berlin" "bob@mute.berlin" "hash" true 0
           {| memstore.rootKeyHash := "root"; memstore.chainKey := "chain";
              memstore.send := sample_send; memstore.recv := sample_send |}).
  - vm_compute. reflexivity.
  - reflexivity.
  - vm_compute. reflexivity.
Defined.

Lemma GetMessageKey_length_witness :
  memstore.GetMessageKey sample_heap sample_store
    "alice@mute.berlin" "bob@mute.berlin" "hash" true 0 = Ok (replicate 64 x41) ∧
  length (replicate 64 x41) = 64.
Proof.
  split; [vm_compute; reflexivity|].
  apply (proj1 (GetMessageKey_length sample_heap sample_store
                  "alice@mute.berlin" "bob@mute.berlin" "hash" true 0)).
  vm_compute. reflexivity.
Defined.

Lemma no_session_found_witness :
  memstore.NumMessageKeys sample_store "alice@mute.berlin" "bob@mute.berlin" "other"
  = Err (errors_New
           "memstore: no session found for alice@mute.berlin and bob@mute.berlin") ∧
  memstore.GetMessageKey sample_heap sample_store
    "alice@mute.berlin" "bob@mute.berlin" "other" true 0
  = Err (errors_New
           "memstore: no session found for alice@mute.berlin and bob@mute.berlin") ∧
  memstore.GetRootKeyHash sample_store "alice@mute.berlin" "bob@mute.berlin" "other"
  = Err (errors_New
           "memstore: no session found for alice@mute.berlin and bob@mute.berlin") ∧
  memstore.DelMessageKey sample_heap sample_store
    "alice@mute.berlin" "bob@mute.berlin" "other" true 0
  = (sample_heap,
     Err (errors_New
            "memstore: no session found for alice@mute.berlin and bob@mute.berlin")).
Proof.
  apply (no_session_found sample_heap sample_store
           "alice@mute.berlin" "bob@mute.berlin" "other" true 0).
  vm_compute. reflexivity.
Defined.

Lemma GetSessionState_last_set_witness :
  ∃ ms : memstore.MemStore,
    memstore.run memstore.New
      [memstore.CallSetSessionState "alice" "bob" (Some 1);
       memstore.CallSetSessionState "bob" "alice" (Some 2);
       memstore.CallSetSessionState "alice" "bob" (Some 3)] = Ok ms ∧
    memstore.GetSessionState ms "alice" "bob" = (Some 3, None) ∧
    memstore.GetSessionState ms "alice" "carol" = (None, None).
Proof.
  eexists. split; [reflexivity|]. split.
  - rewrite (GetSessionState_last_set
               [memstore.CallSetSessionState "alice" "bob" (Some 1);
                memstore.CallSetSessionState "bob" "alice" (Some 2);
                memstore.CallSetSessionState "alice" "bob" (Some 3)])
      by reflexivity.
    vm_compute. reflexivity.
  - vm_compute. reflexivity.
Defined.

Lemma HasSession_stable_witness :
  ∃ ms : memstore.MemStore,
    memstore.run sample_store
      [memstore.CallSetSessionState "alice@mute.berlin" "bob@mute.berlin" (Some 1);
       memstore.CallStoreSession "alice@mute.berlin" "bob@mute.berlin"
         "hash2" "root" "chain" sample_recv sample_send] = Ok ms ∧
    memstore.HasSession ms "alice@mute.berlin" "bob@mute.berlin" "hash" = true.
Proof.
  eexists. split; [reflexivity|].
  apply (HasSession_stable
           [memstore.CallSetSessionState "alice@mute.berlin" "bob@mute.berlin" (Some 1);
            memstore.CallStoreSession "alice@mute.berlin" "bob@mute.berlin"
              "hash2" "root" "chain" sample_recv sample_send]
           sample_store).
  - vm_compute. reflexivity.
  - reflexivity.
Defined.

End store_more_samples.

(** ** uid: creation, verification and lookup of key-init messages *)

Section keyinit_more.
Context `{uid.JSON, Base64, Hash, CTR, Ed25519, MessageT}.

(** What a successful [KeyInit] has checked and built. *)
Lemma Message_KeyInit_inv (msg : Message) (msgcount notafter notbefore : Z)
  (fallback : bool) (repoURI mixaddress nymaddress : string)
  (rand rand' : Reader) (now1 now2 : Z)
  (ki : uid.KeyInit) (pubKeyHash privateKey : string) :
  uid.Message_KeyInit msg msgcount notafter notbefore fallback
    repoURI mixaddress nymaddress rand now1 now2
  = Ok ((ki, pubKeyHash, privateKey), rand') ->
  (notbefore < notafter)%Z ∧
  (uint64 now1 ≤ notafter)%Z ∧
  (notafter ≤ uint64 (uint64 now2 + uid.MaxNotAfter))%Z ∧
  UIDContent_REPOURIS msg !! 0 = Some repoURI ∧
  ∃ (keyHash : bytes) (sa sah : string),
    base64_Decode (UIDContent_SIGKEY_HASH msg) = Ok keyHash ∧
    uid.Message_sessionAnchor keyHash mixaddress nymaddress rand
    = Ok ((sa, sah, pubKeyHash, privateKey), rand') ∧
    ki = KeyInit_of msg msgcount notafter notbefore fallback repoURI keyHash sa sah.
Proof.
  unfold uid.Message_KeyInit.
  destruct (decide (notbefore >= notafter)%Z); [done|].
  destruct (decide (notafter < uint64 now1)%Z); [done|].
  destruct (decide (notafter > uint64 (uint64 now2 + uid.MaxNotAfter))%Z); [done|].
  destruct (base64_Decode (UIDContent_SIGKEY_HASH msg)) as [keyHash| |]; [|done..].
  cbn [mbind res_bind].
  destruct (UIDContent_REPOURIS msg) as [|repoURI0 uris]; [done|].
  destruct (decide (repoURI ≠ repoURI0)) as [|Heq]; [done|].
  apply dec_stable in Heq. subst repoURI0.
  destruct (uid.Message_sessionAnchor keyHash mixaddress nymaddress rand)
    as [[[[[sa sah] h] p] r]| |] eqn:Hsa; [|done..].
  cbn [mbind res_bind]. intros [= <- <- <- <-].
  repeat split; [lia..|]. by exists keyHash, sa, sah.
Qed.

(** [KeyInit] checks the validity window before anything else: a window
    that is turned around gives [ErrInvalidTimes], one that has ended
    [ErrExpired], one that ends later than [MaxNotAfter] after the current
    time [ErrFuture].  With one clock reading below [2^63], a key-init
    message is only made for a window that ends between the current time
    and 90 days later. *)
Theorem KeyInit_window (msg : Message) (msgcount notafter notbefore : Z)
  (fallback : bool) (repoURI mixaddress nymaddress : string)
  (rand : Reader) (now1 now2 : Z) :
  ((notbefore >= notafter)%Z ->
   uid.Message_KeyInit msg msgcount notafter notbefore fallback
     repoURI mixaddress nymaddress rand now1 now2 = Err ErrInvalidTimes) ∧
  ((notbefore < notafter)%Z -> (notafter < uint64 now1)%Z ->
   uid.Message_KeyInit msg msgcount notafter notbefore fallback
     repoURI mixaddress nymaddress rand now1 now2 = Err ErrExpired) ∧
  ((notbefore < notafter)%Z -> (uint64 now1 ≤ notafter)%Z ->
   (notafter > uint64 (uint64 now2 + uid.MaxNotAfter))%Z ->
   uid.Message_KeyInit msg msgcount notafter notbefore fallback
     repoURI mixaddress nymaddress rand now1 now2 = Err ErrFuture) ∧
  (∀ now result,
     (0 ≤ now < 2 ^ 63)%Z ->
     uid.Message_KeyInit msg msgcount notafter notbefore fallback
       repoURI mixaddress nymaddress rand now now = Ok result ->
     (notbefore < notafter)%Z ∧ (now ≤ notafter ≤ now + 7776000)%Z).
Proof.
  unfold uid.Message_KeyInit. repeat split.
  - intros Hnb. by rewrite decide_True.
  - intros Hnb Hna. rewrite decide_False by lia. by rewrite decide_True.
  - intros Hnb Hna Hfut. do 2 (rewrite decide_False by lia). by rewrite decide_True.
  - destruct (decide (notbefore >= notafter)%Z); [done|lia].
  - destruct (decide (notbefore >= notafter)%Z); [done|].
    destruct (decide (notafter < uint64 now)%Z) as [|Hna]; [done|].
    unfold uint64 in Hna. rewrite Z.mod_small in Hna by lia. lia.
  - destruct (decide (notbefore >= notafter)%Z); [done|].
    destruct (decide (notafter < uint64 now)%Z); [done|].
    destruct (decide (notafter > uint64 (uint64 now + uid.MaxNotAfter))%Z)
      as [|Hfut]; [done|].
    unfold uint64, uid.MaxNotAfter, uint64 in Hfut.
    rewrite (Z.mod_small now) in Hfut by lia.
    rewrite (Z.mod_small (90 * 24 * 60 * 60)) in Hfut by lia.
    rewrite Z.mod_small in Hfut by lia. lia.
Qed.

(** A key-init message that [KeyInit] returns records the arguments: the
    protocol version, the message count, the validity window, the fallback
    flag and the repository URI, which is the first one of the UID message;
    and its signature is the encoded signature of its contents under the
    signing key of the UID message. *)
Theorem KeyInit_records (msg : Message) (msgcount notafter notbefore : Z)
  (fallback : bool) (repoURI mixaddress nymaddress : string)
  (rand rand' : Reader) (now1 now2 : Z)
  (ki : uid.KeyInit) (pubKeyHash privateKey : string) :
  uid.Message_KeyInit msg msgcount notafter notbefore fallback
    repoURI mixaddress nymaddress rand now1 now2
  = Ok ((ki, pubKeyHash, privateKey), rand') ->
  uid.VERSION (uid.Contents ki) = ProtocolVersion ∧
  uid.KeyInit_MsgCount ki = msgcount ∧
  uid.NOTAFTER (uid.Contents ki) = notafter ∧
  uid.NOTBEFORE (uid.Contents ki) = notbefore ∧
  uid.FALLBACK (uid.Contents ki) = fallback ∧
  uid.REPOURI (uid.Contents ki) = repoURI ∧
  UIDContent_REPOURIS msg !! 0 = Some repoURI ∧
  (∃ keyHash, base64_Decode (UIDContent_SIGKEY_HASH msg) = Ok keyHash ∧
              uid.KeyInit_SigKeyHash ki = base64_Encode (SHA512 keyHash)) ∧
  uid.SIGNATURE ki
  = base64_Encode (ed25519_Sign (UIDContent_SIGKEY_ed25519Key msg)
                     (uid.contents_json (uid.Contents ki))).
Proof.
  intros (_ & _ & _ & Hrepo & keyHash & sa & sah & Hdec & _ & ->)%Message_KeyInit_inv.
  repeat split; try done. by exists keyHash.
Qed.

(** A key-init message that [KeyInit] returns passes [Check] exactly when
    the protocol version is ["1.0"] and it was made with message count 0. *)
Theorem KeyInit_Check_made (msg : Message) (msgcount notafter notbefore : Z)
  (fallback : bool) (repoURI mixaddress nymaddress : string)
  (rand rand' : Reader) (now1 now2 : Z)
  (ki : uid.KeyInit) (pubKeyHash privateKey : string) :
  uid.Message_KeyInit msg msgcount notafter notbefore fallback
    repoURI mixaddress nymaddress rand now1 now2
  = Ok ((ki, pubKeyHash, privateKey), rand') ->
  uid.KeyInit_Check ki = None ↔ ProtocolVersion = "1.0" ∧ msgcount = 0%Z.
Proof.
  intros (_ & _ & _ & _ & keyHash & sa & sah & _ & _ & ->)%Message_KeyInit_inv.
  unfold uid.KeyInit_Check, uid.KeyInit_checkV1_0. cbn.
  destruct (decide (ProtocolVersion ≠ "1.0")) as [Hv|Hv];
    [|destruct (decide (msgcount ≠ 0%Z)) as [Hm|Hm]].
  - intuition congruence.
  - intuition congruence.
  - apply dec_stable in Hv. apply dec_stable in Hm. intuition congruence.
Qed.

(** [sa.KeyEntry(function)] returns the first key entry with the function,
    and [ErrKeyEntryNotFound] exactly when no key entry has it. *)
Theorem SessionAnchor_KeyEntry_first (sa : uid.SessionAnchor) (function : string) :
  (uid.SessionAnchor_KeyEntry sa function = Err ErrKeyEntryNotFound
   ↔ ∀ ke, ke ∈ uid.PFKEYS sa -> ke_FUNCTION ke ≠ function) ∧
  (∀ ke, uid.SessionAnchor_KeyEntry sa function = Ok ke ->
         ∃ before after,
           uid.PFKEYS sa = before ++ ke :: after ∧
           ke_FUNCTION ke = function ∧
           ∀ k, k ∈ before -> ke_FUNCTION k ≠ function) ∧
  (∀ w, uid.SessionAnchor_KeyEntry sa function ≠ Panic w).
Proof.
  unfold uid.SessionAnchor_KeyEntry.
  induction (uid.PFKEYS sa) as [|k l (IH1 & IH2 & IH3)]; cbn.
  - split; [|done]. split; [|done]. by intros _ ke ?%elem_of_nil.
  - destruct (decide (ke_FUNCTION k = function)) as [Hk|Hk].
    + repeat split; try done.
      * intros Hall. exfalso. apply (Hall k); [by left|done].
      * intros ke [= <-]. exists [], l. repeat split; [done|].
        by intros ? ?%elem_of_nil.
    + repeat split; try done.
      * intros Hnf ke [->|Hin]%elem_of_cons; [done|]. by apply IH1.
      * intros Hall. apply IH1. intros ke Hin. apply Hall. by right.
      * intros ke (before & after & -> & Hf & Hbefore)%IH2.
        exists (k :: before), after. repeat split; [done|].
        intros k' [->|Hin]%elem_of_cons; [done|]. by apply Hbefore.
Qed.

Section keyinit_laws.
Context `{!Base64Laws, !HashLaws, !KeyEntryLaws}.

(** The message that [KeyInit] returns, written out. *)
Lemma Message_KeyInit_ok (msg : Message)
  (msgcount notafter notbefore : Z) (fallback : bool)
  (repoURI mixaddress nymaddress : string)
  (rand rand1 : Reader) (now1 now2 : Z) (pubKey : bytes) (ke : KeyEntry) :
  (notbefore < notafter)%Z ->
  (uint64 now1 ≤ notafter)%Z ->
  (notafter ≤ uint64 (uint64 now2 + uid.MaxNotAfter))%Z ->
  UIDContent_REPOURIS msg !! 0 = Some repoURI ->
  UIDContent_SIGKEY_HASH msg = base64_Encode (SHA512 pubKey) ->
  ke_InitDHKey ke_zero rand = Ok (ke, rand1) ->
  16 ≤ length rand1 ->
  uid.Message_KeyInit msg msgcount notafter notbefore fallback
    repoURI mixaddress nymaddress rand now1 now2
  = Ok ((KeyInit_of msg msgcount notafter notbefore fallback repoURI
           (SHA512 pubKey)
           (base64_Encode
              (take 16 rand1 ++
               aes256.XORKeyStream
                 (ctr_keystream (take 32 (SHA512 pubKey)) (take 16 rand1))
                 (uid.SessionAnchor_json
                    {| uid.MIXADDRESS := mixaddress;
                       uid.NYMADDRESS := nymaddress;
                       uid.PFKEYS := [ke] |})))
           (base64_Encode (SHA512 (uid.SessionAnchor_json
                    {| uid.MIXADDRESS := mixaddress;
                       uid.NYMADDRESS := nymaddress;
                       uid.PFKEYS := [ke] |}))),
         ke_HASH ke, base64_Encode (ke_PrivateKey32 ke)), drop 16 rand1).
Proof.
  intros Hnb Hna1 Hna2 Hrepo Hhash Hinit Hrand.
  pose proof (SHA512_length pubKey) as Hlen64.
  unfold uid.Message_KeyInit.
  do 3 (rewrite decide_False by lia).
  rewrite Hhash, base64_Decode_Encode. cbn [mbind res_bind].
  destruct (UIDContent_REPOURIS msg) as [|repoURI0 uris]; [done|].
  injection Hrepo as ->.
  rewrite decide_False by (by intros []).
  rewrite (Message_sessionAnchor_ok (SHA512 pubKey) _ _ _ _ _
             ltac:(lia) Hinit Hrand).
  reflexivity.
Qed.

(** The session anchor of a made message is recovered, in its exported
    part, when the JSON codec preserves it. *)
Lemma KeyInit_of_SessionAnchor (msg : Message)
  (msgcount notafter notbefore : Z) (fallback : bool)
  (repoURI sigPubKey : string) (pubKey iv : bytes) (sa : uid.SessionAnchor) :
  json_preserves sa ->
  base64_Decode sigPubKey = Ok pubKey ->
  length iv = 16 ->
  uid.KeyInit_SessionAnchor
    (KeyInit_of msg msgcount notafter notbefore fallback repoURI (SHA512 pubKey)
       (base64_Encode
          (iv ++ aes256.XORKeyStream (ctr_keystream (take 32 (SHA512 pubKey)) iv)
                   (uid.SessionAnchor_json sa)))
       (base64_Encode (SHA512 (uid.SessionAnchor_json sa))))
    sigPubKey
  = Ok (SessionAnchor_exported sa).
Proof.
  intros Hjson Hpub Hiv. by eapply KeyInit_SessionAnchor_ok.
Qed.

(** A key-init message made by [KeyInit] for a UID message is accepted by
    [Verify] with the public key of that message and a list that holds the
    repository URI, at every time up to NOTAFTER: provided the JSON codec
    preserves the generated anchor, the signing key and the public key are a
    key pair, and the key entry made by [InitDHKey] is one for ECDHE25519
    whose exported part verifies. *)
Theorem KeyInit_Verify_accepts (msg : Message)
  (msgcount notafter notbefore : Z) (fallback : bool)
  (repoURI mixaddress nymaddress sigPubKey : string)
  (rand rand1 : Reader) (now1 now2 now : Z) (pubKey : bytes) (ke : KeyEntry)
  (uris : list string) :
  (notbefore < notafter)%Z ->
  (uint64 now1 ≤ notafter)%Z ->
  (notafter ≤ uint64 (uint64 now2 + uid.MaxNotAfter))%Z ->
  UIDContent_REPOURIS msg !! 0 = Some repoURI ->
  base64_Decode sigPubKey = Ok pubKey ->
  UIDContent_SIGKEY_HASH msg = base64_Encode (SHA512 pubKey) ->
  ke_InitDHKey ke_zero rand = Ok (ke, rand1) ->
  16 ≤ length rand1 ->
  json_preserves {| uid.MIXADDRESS := mixaddress;
                    uid.NYMADDRESS := nymaddress;
                    uid.PFKEYS := [ke] |} ->
  (∀ m, ed25519_Verify pubKey m
          (ed25519_Sign (UIDContent_SIGKEY_ed25519Key msg) m) = true) ->
  ke_FUNCTION ke = "ECDHE25519" ->
  ke_Verify (ke_exported ke) = None ->
  repoURI ∈ uris ->
  (uint64 now ≤ notafter)%Z ->
  ∃ ki : uid.KeyInit,
    uid.Message_KeyInit msg msgcount notafter notbefore fallback
      repoURI mixaddress nymaddress rand now1 now2
    = Ok ((ki, ke_HASH ke, base64_Encode (ke_PrivateKey32 ke)), drop 16 rand1) ∧
    uid.KeyInit_Verify ki uris sigPubKey now = Ok tt.
Proof.
  intros Hnb Hna1 Hna2 Hrepo Hpub Hhash Hinit Hrand Hjson Hpair Hfun Hver Huris Hnow.
  assert (Hiv : length (take 16 rand1) = 16) by (rewrite length_take; lia).
  eexists. split; [by eapply Message_KeyInit_ok|].
  apply Verify_Ok_iff. split; [split|split; [|split]].
  - cbn. by apply ContainsString_in.
  - eexists _, (ke_exported ke). split; [by apply KeyInit_of_SessionAnchor|].
    split; [|done]. unfold uid.SessionAnchor_KeyEntry. cbn.
    by rewrite ke_exported_FUNCTION, Hfun, decide_True.
  - done.
  - done.
  - eexists _, pubKey. cbn. split; [apply base64_Decode_Encode|]. split; [done|].
    apply Hpair.
Qed.


End keyinit_laws.

End keyinit_more.

Section keyinit_checks.
Context `{uid.JSON, Base64, Hash, CTR, Ed25519}.

(** [Verify] compares the clock with NOTAFTER only: a key-init message
    accepted at one time is accepted at every time that is not after
    NOTAFTER, also before NOTBEFORE. *)
Theorem KeyInit_Verify_earlier (ki : uid.KeyInit) (uris : list string)
  (sigPubKey : string) (now now' : Z) :
  uid.KeyInit_Verify ki uris sigPubKey now = Ok tt ->
  (uint64 now' ≤ uid.NOTAFTER (uid.Contents ki))%Z ->
  uid.KeyInit_Verify ki uris sigPubKey now' = Ok tt.
Proof.
  intros (Hanchor & Hnb & _ & Hsig)%Verify_Ok_iff Hnow.
  apply Verify_Ok_iff. split; [done|]. split; [done|]. by split.
Qed.

(** [VerifySrvSig] accepts the signature that [Sign] makes under the
    private key of a key pair, and returns [ErrInvalidSrvSig] for a
    signature that does not verify. *)
Theorem KeyInit_Sign_VerifySrvSig `{!Base64Laws} (ki : uid.KeyInit)
  (sigKey pubKey : bytes) (srvPubKey : string) :
  base64_Decode srvPubKey = Ok pubKey ->
  (∀ m, ed25519_Verify pubKey m (ed25519_Sign sigKey m) = true) ->
  uid.KeyInit_VerifySrvSig ki (uid.KeyInit_Sign ki sigKey) srvPubKey = Ok tt ∧
  ∀ (signature : string) (sig : bytes),
    base64_Decode signature = Ok sig ->
    ed25519_Verify pubKey (uid.KeyInit_JSON ki) sig = false ->
    uid.KeyInit_VerifySrvSig ki signature srvPubKey = Err ErrInvalidSrvSig.
Proof.
  intros Hpub Hpair. unfold uid.KeyInit_VerifySrvSig, uid.KeyInit_Sign. split.
  - rewrite base64_Decode_Encode, Hpub. cbn [mbind res_bind]. by rewrite Hpair.
  - intros signature sig Hsig Hv. rewrite Hsig, Hpub. cbn [mbind res_bind].
    by rewrite Hv.
Qed.

Section anchor_checks.
Context `{!Base64Laws, !HashLaws}.


(** A key-init message whose SIGKEYHASH fits the public key and whose
    decoded session anchor has fewer than 16 bytes makes [SessionAnchor]
    panic in [CTRDecrypt], and so [KeyEntryECDHE25519], and [Verify] when
    the repository URI is listed. *)
Theorem KeyInit_short_anchor_panics (ki : uid.KeyInit) (uris : list string)
  (sigPubKey : string) (pubKey enc : bytes) (now : Z) :
  base64_Decode sigPubKey = Ok pubKey ->
  uid.SIGKEYHASH (uid.Contents ki) = base64_Encode (SHA512 (SHA512 pubKey)) ->
  base64_Decode (uid.SESSIONANCHOR (uid.Contents ki)) = Ok enc ->
  length enc < 16 ->
  uid.KeyInit_SessionAnchor ki sigPubKey = Panic "aes256: ciphertext too short" ∧
  uid.KeyInit_KeyEntryECDHE25519 ki sigPubKey
  = Panic "aes256: ciphertext too short" ∧
  (uid.REPOURI (uid.Contents ki) ∈ uris ->
   uid.KeyInit_Verify ki uris sigPubKey now = Panic "aes256: ciphertext too short").
Proof.
  intros Hpub Hkh Henc Hlen.
  destruct (SHA512_key32 pubKey) as [Hslice Hlen32].
  assert (Hsa : uid.KeyInit_SessionAnchor ki sigPubKey
                = Panic "aes256: ciphertext too short").
  { unfold uid.KeyInit_SessionAnchor. rewrite Hpub. cbn [mbind res_bind].
    rewrite Hkh, decide_False by (by intros []).
    rewrite Henc. cbn [mbind res_bind]. rewrite Hslice. cbn [mbind res_bind].
    unfold aes256.CTRDecrypt, aes256.BlockSize.
    rewrite decide_False by lia. by rewrite decide_True. }
  split; [done|]. split.
  - unfold uid.KeyInit_KeyEntryECDHE25519. by rewrite Hsa.
  - intros Huri. unfold uid.KeyInit_Verify.
    rewrite (ContainsString_in _ _ Huri). cbn [negb]. by rewrite Hsa.
Qed.

End anchor_checks.

Section find_key_entry.
Context `{!KeyDB, !MessageT, !Base64Laws, !HashLaws, !KeyEntryLaws}.


End find_key_entry.

End keyinit_checks.

(** *** Made and checked key-init messages on the sample data *)

Section keyinit_more_samples.
Import ref_inst.
#[local] Existing Instance base64_id.
#[local] Existing Instance hash_prefix.
#[local] Existing Instance ctr_repeat.
#[local] Existing Instance ed25519_echo.
#[local] Existing Instance key_entry_triple.
#[local] Existing Instance message_record.
#[local] Existing Instance json_prefixed.
#[local] Existing Instance keydb_sample.
#[local] Existing Instance base64_id_laws.
#[local] Existing Instance hash_prefix_laws.
#[local] Existing Instance json_prefixed_utf8.
#[local] Existing Instance key_entry_triple_laws.

(** The key entry that the reference [InitDHKey] makes from the sample
    randomness. *)
Definition sample_ke : KeyEntry :=
  ("ECDHE25519", base64_Encode [x02; x01], [x01; x02]).

Lemma KeyInit_records_witness :
  uid.VERSION (uid.Contents sample_ki) = "1.0" ∧
  uid.KeyInit_MsgCount sample_ki = 0%Z ∧
  uid.NOTAFTER (uid.Contents sample_ki) = 200%Z ∧
  uid.NOTBEFORE (uid.Contents sample_ki) = 100%Z ∧
  uid.FALLBACK (uid.Contents sample_ki) = false ∧
  uid.REPOURI (uid.Contents sample_ki) = "mute.berlin" ∧
  UIDContent_REPOURIS sample_msg !! 0 = Some "mute.berlin" ∧
  (∃ keyHash, base64_Decode (UIDContent_SIGKEY_HASH sample_msg) = Ok keyHash ∧
              uid.KeyInit_SigKeyHash sample_ki = base64_Encode (SHA512 keyHash)) ∧
  uid.SIGNATURE sample_ki
  = base64_Encode (ed25519_Sign (UIDContent_SIGKEY_ed25519Key sample_msg)
                     (uid.contents_json (uid.Contents sample_ki))).
Proof.
  apply (KeyInit_records sample_msg 0 200 100 false
           "mute.berlin" "mix.mute.berlin" "nym" sample_rand [x03] 150 150
           sample_ki (base64_Encode [x02; x01]) (base64_Encode [x01; x02])).
  vm_compute. reflexivity.
Defined.

Lemma KeyInit_Check_made_witness :
  uid.KeyInit_Check sample_ki = None ↔ "1.0" = "1.0" ∧ 0%Z = 0%Z.
Proof.
  apply (KeyInit_Check_made sample_msg 0 200 100 false
           "mute.berlin" "mix.mute.berlin" "nym" sample_rand [x03] 150 150
           sample_ki (base64_Encode [x02; x01]) (base64_Encode [x01; x02])).
  vm_compute. reflexivity.
Defined.

Lemma KeyInit_Verify_accepts_witness :
  ∃ ki : uid.KeyInit,
    uid.Message_KeyInit sample_msg 0 200 100 false
      "mute.berlin" "mix.mute.berlin" "nym" sample_rand 150 150
    = Ok ((ki, base64_Encode [x02; x01], base64_Encode [x01; x02]), [x03]) ∧
    uid.KeyInit_Verify ki ["other.berlin"; "mute.berlin"] sample_sigPubKey 180
    = Ok tt.
Proof.
  apply (KeyInit_Verify_accepts sample_msg 0 200 100 false
           "mute.berlin" "mix.mute.berlin" "nym" sample_sigPubKey
           sample_rand (replicate 16 x09 ++ [x03]) 150 150 180
           sample_pubKey sample_ke ["other.berlin"; "mute.berlin"]).
  - lia.
  - vm_compute. discriminate.
  - vm_compute. discriminate.
  - reflexivity.
  - vm_compute. reflexivity.
  - vm_compute. reflexivity.
  - vm_compute. reflexivity.
  - vm_compute. lia.
  - split; vm_compute; reflexivity.
  - intros m. apply bool_decide_eq_true. reflexivity.
  - reflexivity.
  - reflexivity.
  - right. left.
  - vm_compute. discriminate.
Defined.


(** The sample message, valid from 100 to 200 and accepted at 150, is
    accepted at time 0 as well. *)
Lemma KeyInit_Verify_earlier_witness :
  uid.KeyInit_Verify sample_ki ["mute.berlin"] sample_sigPubKey 0 = Ok tt.
Proof.
  apply (KeyInit_Verify_earlier sample_ki ["mute.berlin"] sample_sigPubKey 150 0).
  - vm_compute. reflexivity.
  - vm_compute. discriminate.
Defined.

Lemma KeyInit_Sign_VerifySrvSig_witness :
  uid.KeyInit_VerifySrvSig sample_ki (uid.KeyInit_Sign sample_ki sample_pubKey)
    sample_sigPubKey = Ok tt ∧
  ∀ (signature : string) (sig : bytes),
    base64_Decode signature = Ok sig ->
    ed25519_Verify sample_pubKey (uid.KeyInit_JSON sample_ki) sig = false ->
    uid.KeyInit_VerifySrvSig sample_ki signature sample_sigPubKey
    = Err ErrInvalidSrvSig.
Proof.
  apply (KeyInit_Sign_VerifySrvSig sample_ki sample_pubKey sample_pubKey
           sample_sigPubKey).
  - vm_compute. reflexivity.
  - intros m. apply bool_decide_eq_true. reflexivity.
Defined.


Lemma KeyInit_short_anchor_panics_witness :
  uid.KeyInit_SessionAnchor sample_ki_short sample_sigPubKey
  = Panic "aes256: ciphertext too short" ∧
  uid.KeyInit_KeyEntryECDHE25519 sample_ki_short sample_sigPubKey
  = Panic "aes256: ciphertext too short" ∧
  (uid.REPOURI (uid.Contents sample_ki_short) ∈ ["mute.berlin"] ->
   uid.KeyInit_Verify sample_ki_short ["mute.berlin"] sample_sigPubKey 150
   = Panic "aes256: ciphertext too short").
Proof.
  apply (KeyInit_short_anchor_panics sample_ki_short ["mute.berlin"]
           sample_sigPubKey sample_pubKey (bytes_of_string "abc") 150).
  - vm_compute. reflexivity.
  - vm_compute. reflexivity.
  - vm_compute. reflexivity.
  - vm_compute. lia.
Defined.


End keyinit_more_samples.
